(** * A relational model of the competition back end

    The program is a Flask application that maps each HTTP endpoint to one
    or two parameterised SQL statements on an SQLite database with four
    tables ([users], [competitions], [competitors] and the association
    table [competition_competitors]), and a seed loader that fills the
    tables at start-up.

    The embedding follows the source function by function:
    - a JSON value is the inductive type [json]; a Python [dict] is an
      association list in insertion order;
    - a Python exception is a constructor of [exn], and code that may raise
      lives in the error monad [result];
    - a table is the list of its rows in rowid order, every column holding
      SQL [NULL] or a text ([value]); the store is the record of the four
      tables;
    - a handler is a function from the request and the store before the
      request to the store after it and the response.  A handler that
      raises before [db.commit()] leaves the store as it found it: the
      connection is closed when the request context ends and the pending
      transaction is discarded.

    JSON numbers and booleans are left out: every column is TEXT and the
    data of the program are strings. *)

From Stdlib Require Import List String Bool.
Import ListNotations.
Open Scope string_scope.
Open Scope list_scope.
Set Warnings "-register-all".

(** ** JSON values and Python exceptions *)

Inductive json : Type :=
| JNull
| JStr (s : string)
| JArr (items : list json)
| JObj (fields : list (string * json)).

Inductive exn : Type :=
| KeyError (key : string)
| TypeError
| AttributeError
| IntegrityError (msg : string)
| BindError
| FileNotFoundError
| JSONDecodeError.

Inductive result (A : Type) : Type :=
| Ok (a : A)
| Raise (e : exn).
Arguments Ok {A} a.
Arguments Raise {A} e.

Definition bind {A B : Type} (m : result A) (k : A -> result B) : result B :=
  match m with
  | Ok a => k a
  | Raise e => Raise e
  end.

Declare Scope result_scope.
Delimit Scope result_scope with result.
Notation "x <- m ;; k" := (bind m (fun x => k))
  (at level 61, m at next level, right associativity) : result_scope.
Notation "' pat <- m ;; k" := (bind m (fun x => match x with pat => k end))
  (at level 61, pat pattern, m at next level, right associativity) : result_scope.
Open Scope result_scope.

(** [for x in xs: body], the loop stopping at the first exception. *)
Fixpoint for_each {A S : Type} (body : A -> S -> result S) (xs : list A) (s : S)
  : result S :=
  match xs with
  | [] => Ok s
  | x :: rest => s' <- body x s ;; for_each body rest s'
  end.

(** Lookup in a [dict]. *)
Fixpoint assoc (k : string) (fields : list (string * json)) : option json :=
  match fields with
  | [] => None
  | (k', v) :: rest => if String.eqb k k' then Some v else assoc k rest
  end.

(** [data.get(k, default)]: only a [dict] has the method. *)
Definition py_get (data : json) (k : string) (default : json) : result json :=
  match data with
  | JObj fields =>
      Ok (match assoc k fields with Some v => v | None => default end)
  | _ => Raise AttributeError
  end.

(** [data[k]]. *)
Definition py_item (data : json) (k : string) : result json :=
  match data with
  | JObj fields =>
      match assoc k fields with
      | Some v => Ok v
      | None => Raise (KeyError k)
      end
  | _ => Raise TypeError
  end.

(** [k in data], used by the seed loader on a value it has subscripted. *)
Definition py_contains (k : string) (data : json) : bool :=
  match data with
  | JObj fields => match assoc k fields with Some _ => true | None => false end
  | _ => false
  end.

(** [data.items()]. *)
Definition py_items (data : json) : result (list (string * json)) :=
  match data with
  | JObj fields => Ok fields
  | _ => Raise AttributeError
  end.

Fixpoint chars (s : string) : list json :=
  match s with
  | EmptyString => []
  | String c rest => JStr (String c EmptyString) :: chars rest
  end.

(** [for x in data]: a list gives its items, a string its characters, a
    dict its keys; [None] is not iterable. *)
Definition py_iter (data : json) : result (list json) :=
  match data with
  | JArr items => Ok items
  | JStr s => Ok (chars s)
  | JObj fields => Ok (map (fun kv => JStr (fst kv)) fields)
  | JNull => Raise TypeError
  end.

(** Python truthiness, as in [if not competition_name]. *)
Definition truthy (j : json) : bool :=
  match j with
  | JNull => false
  | JStr s => negb (String.eqb s "")
  | JArr items => match items with [] => false | _ => true end
  | JObj fields => match fields with [] => false | _ => true end
  end.

(** ** SQL values *)

(** A column holds [NULL] ([None]) or a text. *)
Definition value : Type := option string.

(** Binding a Python value to a [?]: [None] and [str] are supported, a list
    or a dict is refused by the [sqlite3] module. *)
Definition bind_param (j : json) : result value :=
  match j with
  | JNull => Ok None
  | JStr s => Ok (Some s)
  | _ => Raise BindError
  end.

(** SQL [a = b] in a [WHERE] or [ON] clause: true only for two equal
    texts, never when a side is [NULL]. *)
Definition sql_eq (a b : value) : bool :=
  match a, b with
  | Some x, Some y => String.eqb x y
  | _, _ => false
  end.

(** ** Tables *)

Section Table.
Variable row : Type.
(** The [NOT NULL] columns of the row are filled. *)
Variable filled : row -> bool.
(** Two rows collide on the primary key.  SQLite lets a [NULL] into a
    primary key column of a rowid table and never counts it as a
    duplicate. *)
Variable same_key : row -> row -> bool.
Variable not_null_msg unique_msg : string.

(** [INSERT INTO t VALUES ...] *)
Definition insert (r : row) (t : list row) : result (list row) :=
  if negb (filled r) then Raise (IntegrityError not_null_msg)
  else if existsb (same_key r) t then Raise (IntegrityError unique_msg)
  else Ok (t ++ [r]).

(** [INSERT OR IGNORE INTO t VALUES ...]: a row that breaks a constraint
    is skipped. *)
Definition insert_or_ignore (r : row) (t : list row) : list row :=
  if negb (filled r) then t
  else if existsb (same_key r) t then t
  else t ++ [r].

(** [DELETE FROM t WHERE p] *)
Definition delete (p : row -> bool) (t : list row) : list row :=
  filter (fun r => negb (p r)) t.

(** [UPDATE t SET ... WHERE p]: the rows are visited in order; a changed
    row is checked against all the other rows of the table as it stands,
    and the first violation aborts the statement. *)
Fixpoint update_from (p : row -> bool) (f : row -> row)
         (done todo : list row) : result (list row) :=
  match todo with
  | [] => Ok done
  | r :: rest =>
      if p r then
        let r' := f r in
        if negb (filled r') then Raise (IntegrityError not_null_msg)
        else if existsb (same_key r') (done ++ rest)
             then Raise (IntegrityError unique_msg)
             else update_from p f (done ++ [r']) rest
      else update_from p f (done ++ [r]) rest
  end.

Definition update (p : row -> bool) (f : row -> row) (t : list row)
  : result (list row) :=
  update_from p f [] t.
End Table.

Arguments insert {row}.
Arguments insert_or_ignore {row}.
Arguments delete {row}.
Arguments update_from {row}.
Arguments update {row}.

(** ** The schema *)

Module User.
Record t : Type := mk { password : value; role : value }.
End User.

Module Competition.
Record t : Type :=
  mk { name : value; date : value; location : value;
       description : value; status : value }.
End Competition.

Module Competitor.
Record t : Type :=
  mk { id : value; name : value; nationality : value; status : value }.
End Competitor.

Module Link.
Record t : Type := mk { competition_name : value; competitor_id : value }.
End Link.

(** The database.  The [FOREIGN KEY] clauses of [competition_competitors]
    are declared, and SQLite leaves them unchecked: no connection of the
    program turns [PRAGMA foreign_keys] on. *)
Record store : Type := mkStore {
  users : list User.t;
  competitions : list Competition.t;
  competitors : list Competitor.t;
  competition_competitors : list Link.t
}.

Definition with_users (us : list User.t) (s : store) : store :=
  mkStore us (competitions s) (competitors s) (competition_competitors s).
Definition with_competitions (cs : list Competition.t) (s : store) : store :=
  mkStore (users s) cs (competitors s) (competition_competitors s).
Definition with_competitors (cs : list Competitor.t) (s : store) : store :=
  mkStore (users s) (competitions s) cs (competition_competitors s).
Definition with_links (ls : list Link.t) (s : store) : store :=
  mkStore (users s) (competitions s) (competitors s) ls.

(** [users]: [password TEXT PRIMARY KEY, role TEXT NOT NULL] *)
Definition user_filled (u : User.t) : bool :=
  match User.role u with Some _ => true | None => false end.
Definition user_key (u v : User.t) : bool :=
  sql_eq (User.password u) (User.password v).
Definition insert_user :=
  insert user_filled user_key
         "NOT NULL constraint failed: users.role"
         "UNIQUE constraint failed: users.password".
Definition insert_or_ignore_user := insert_or_ignore user_filled user_key.

(** [competitions]: [name TEXT PRIMARY KEY] *)
Definition competition_key (c d : Competition.t) : bool :=
  sql_eq (Competition.name c) (Competition.name d).
Definition competition_unique_msg := "UNIQUE constraint failed: competitions.name".
Definition insert_competition :=
  insert (fun _ => true) competition_key "" competition_unique_msg.
Definition insert_or_ignore_competition :=
  insert_or_ignore (fun _ : Competition.t => true) competition_key.
Definition update_competitions :=
  update (fun _ => true) competition_key "" competition_unique_msg.

(** [competitors]: [id TEXT PRIMARY KEY] *)
Definition competitor_key (c d : Competitor.t) : bool :=
  sql_eq (Competitor.id c) (Competitor.id d).
Definition competitor_unique_msg := "UNIQUE constraint failed: competitors.id".
Definition insert_competitor :=
  insert (fun _ => true) competitor_key "" competitor_unique_msg.
Definition insert_or_ignore_competitor :=
  insert_or_ignore (fun _ : Competitor.t => true) competitor_key.
Definition update_competitors :=
  update (fun _ => true) competitor_key "" competitor_unique_msg.

(** [competition_competitors]:
    [PRIMARY KEY (competition_name, competitor_id)] *)
Definition link_key (a b : Link.t) : bool :=
  sql_eq (Link.competition_name a) (Link.competition_name b)
  && sql_eq (Link.competitor_id a) (Link.competitor_id b).
Definition link_unique_msg :=
  "UNIQUE constraint failed: competition_competitors.competition_name, competition_competitors.competitor_id".
Definition insert_link :=
  insert (fun _ => true) link_key "" link_unique_msg.
Definition insert_or_ignore_link :=
  insert_or_ignore (fun _ : Link.t => true) link_key.
Definition update_links :=
  update (fun _ => true) link_key "" link_unique_msg.

(** ** Responses *)

Inductive payload : Type :=
| Message (success : bool) (message : string)
| LoggedIn (message : string) (role : value)
| UserRows (rows : list User.t)
| CompetitionRows (rows : list Competition.t)
| CompetitorRows (rows : list Competitor.t)
| NameNationality (rows : list (value * value))
| Profile (competitor : Competitor.t) (competitions : list (value * value * value))
| Unhandled (e : exn).

Record response : Type := mkResponse { status_code : nat; body : payload }.

(** [jsonify(success=..., message=...)], HTTP 200 unless a code is given. *)
Definition jsonify (success : bool) (message : string) : response :=
  mkResponse 200 (Message success message).

(** An exception that leaves the handler: Flask answers 500. *)
Definition server_error (e : exn) : response := mkResponse 500 (Unhandled e).

(** [str(e)].  The program fixes the text of a [KeyError] (the key, quoted)
    and SQLite that of a constraint failure.  The wording of the other
    exceptions belongs to the interpreter and to the [sqlite3] module: the
    texts given for them here are placeholders, and no statement mentions
    them. *)
Definition str (e : exn) : string :=
  match e with
  | KeyError k => "'" ++ k ++ "'"
  | IntegrityError msg => msg
  | TypeError => "object is not subscriptable"
  | AttributeError => "object has no attribute"
  | BindError => "Error binding parameter"
  | FileNotFoundError => "No such file or directory"
  | JSONDecodeError => "Expecting value"
  end%string.

(** ** User management *)

(** [POST /api/login] *)
Definition login (req : json) (s : store) : store * response :=
  match py_get req "password" JNull with
  | Raise e => (s, server_error e)
  | Ok password =>
      match bind_param password with
      | Raise e => (s, server_error e)
      | Ok pw =>
          match find (fun u => sql_eq (User.password u) pw) (users s) with
          | Some user =>
              (s, mkResponse 200 (LoggedIn "Login successful." (User.role user)))
          | None => (s, jsonify false "Invalid password.")
          end
      end
  end.

(** [POST /api/signup] *)
Definition signup (req : json) (s : store) : store * response :=
  match py_get req "password" JNull with
  | Raise e => (s, server_error e)
  | Ok password =>
      match (pw <- bind_param password ;;
             insert_user (User.mk pw (Some "general")) (users s)) with
      | Ok us =>
          (with_users us s,
           jsonify true "User created successfully. You can now log in.")
      | Raise (IntegrityError _) => (s, jsonify false "User already exists.")
      | Raise e => (s, server_error e)
      end
  end.

(** [GET /api/users] *)
Definition get_users (s : store) : response :=
  mkResponse 200 (UserRows (users s)).

(** [POST /api/users/add] *)
Definition add_user (req : json) (s : store) : store * response :=
  match (password <- py_get req "password" JNull ;;
         role <- py_get req "role" (JStr "general") ;;
         Ok (password, role)) with
  | Raise e => (s, server_error e)
  | Ok (password, role) =>
      match (pw <- bind_param password ;;
             r <- bind_param role ;;
             insert_user (User.mk pw r) (users s)) with
      | Ok us => (with_users us s, jsonify true "User added successfully.")
      | Raise (IntegrityError _) => (s, jsonify false "User already exists.")
      | Raise e => (s, server_error e)
      end
  end.

(** [POST /api/users/remove] *)
Definition remove_user (req : json) (s : store) : store * response :=
  match (password <- py_get req "password" JNull ;; bind_param password) with
  | Raise e => (s, server_error e)
  | Ok pw =>
      (with_users (delete (fun u => sql_eq (User.password u) pw) (users s)) s,
       jsonify true "User removed successfully.")
  end.

(** ** Competition management *)

(** [GET /api/competitions] *)
Definition get_competitions (s : store) : response :=
  mkResponse 200 (CompetitionRows (competitions s)).

(** [POST /api/competitions/add] *)
Definition add_competition (data : json) (s : store) : store * response :=
  match (name <- py_item data "name" ;;
         date <- py_item data "date" ;;
         location <- py_item data "location" ;;
         description <- py_item data "description" ;;
         n <- bind_param name ;;
         d <- bind_param date ;;
         l <- bind_param location ;;
         ds <- bind_param description ;;
         insert_competition (Competition.mk n d l ds (Some "Upcoming"))
                            (competitions s)) with
  | Ok cs =>
      (with_competitions cs s, jsonify true "Competition added successfully.")
  | Raise (IntegrityError _) =>
      (s, jsonify false "Competition with this name already exists.")
  | Raise e => (s, server_error e)
  end.

(** [POST /api/competitions/remove] *)
Definition remove_competition (req : json) (s : store) : store * response :=
  match (name <- py_get req "name" JNull ;; bind_param name) with
  | Raise e => (s, server_error e)
  | Ok n =>
      (with_competitions
         (delete (fun c => sql_eq (Competition.name c) n) (competitions s)) s,
       jsonify true "Competition removed successfully.")
  end.

(** [POST /api/competitions/edit] *)
Definition edit_competition (data : json) (s : store) : store * response :=
  match (new_name <- py_item data "new_name" ;;
         new_date <- py_item data "new_date" ;;
         new_location <- py_item data "new_location" ;;
         new_description <- py_item data "new_description" ;;
         new_status <- py_item data "new_status" ;;
         original_name <- py_item data "original_name" ;;
         n <- bind_param new_name ;;
         d <- bind_param new_date ;;
         l <- bind_param new_location ;;
         ds <- bind_param new_description ;;
         st <- bind_param new_status ;;
         o <- bind_param original_name ;;
         update_competitions
           (fun c => sql_eq (Competition.name c) o)
           (fun _ => Competition.mk n d l ds st)
           (competitions s)) with
  | Ok cs =>
      (with_competitions cs s, jsonify true "Competition updated successfully.")
  | Raise e => (s, jsonify false (str e))
  end.

(** The rows of
    [competitors c JOIN competition_competitors cc ON c.id = cc.competitor_id
     WHERE cc.competition_name = ?].
    SQL leaves the order of the rows open and SQLite's planner chooses it
    (it walks the association table, not the entity table).  The model
    takes the rows in the order of a nested loop over [competitors]; that
    order is the model's own, and every statement about the join speaks
    of the rows that are in it, never of their order. *)
Definition competition_members (competition_name : string) (s : store)
  : list Competitor.t :=
  flat_map
    (fun c =>
       flat_map
         (fun cc =>
            if sql_eq (Competitor.id c) (Link.competitor_id cc)
               && sql_eq (Link.competition_name cc) (Some competition_name)
            then [c] else [])
         (competition_competitors s))
    (competitors s).

(** [GET /api/competitions/<competition_name>/competitors] *)
Definition get_competition_competitors (competition_name : string) (s : store)
  : response :=
  mkResponse 200
    (NameNationality
       (map (fun c => (Competitor.name c, Competitor.nationality c))
            (competition_members competition_name s))).

(** [POST /api/competitions/add_competitor] *)
Definition add_competitor_to_competition (data : json) (s : store)
  : store * response :=
  match (competition_name <- py_get data "competition_name" JNull ;;
         competitor_id <- py_get data "competitor_id" JNull ;;
         Ok (competition_name, competitor_id)) with
  | Raise e => (s, server_error e)
  | Ok (competition_name, competitor_id) =>
      if negb (truthy competition_name) || negb (truthy competitor_id) then
        (s, jsonify false "Competition name and competitor ID are required.")
      else
        match (cn <- bind_param competition_name ;;
               ci <- bind_param competitor_id ;;
               insert_link (Link.mk cn ci) (competition_competitors s)) with
        | Ok ls => (with_links ls s, jsonify true "Competitor assigned successfully.")
        | Raise (IntegrityError _) =>
            (s, jsonify false "Competitor is already assigned to this competition.")
        | Raise e => (s, jsonify false ("An error occurred: " ++ str e)%string)
        end
  end.

(** ** Competitor management *)

(** [GET /api/competitors] *)
Definition get_competitors (s : store) : response :=
  mkResponse 200 (CompetitorRows (competitors s)).

(** The rows of
    [competitions c JOIN competition_competitors cc ON c.name = cc.competition_name
     WHERE cc.competitor_id = ?],
    in the order of a nested loop over [competitions]; as for
    [competition_members], the order is the model's own and the statements
    speak of membership only. *)
Definition competitor_competitions (competitor_id : string) (s : store)
  : list Competition.t :=
  flat_map
    (fun c =>
       flat_map
         (fun cc =>
            if sql_eq (Competition.name c) (Link.competition_name cc)
               && sql_eq (Link.competitor_id cc) (Some competitor_id)
            then [c] else [])
         (competition_competitors s))
    (competitions s).

(** [GET /api/competitors/<competitor_id>/profile] *)
Definition get_competitor_profile (competitor_id : string) (s : store)
  : response :=
  match find (fun c => sql_eq (Competitor.id c) (Some competitor_id))
             (competitors s) with
  | None => mkResponse 404 (Message false "Competitor not found.")
  | Some competitor =>
      mkResponse 200
        (Profile competitor
           (map (fun c => (Competition.name c, Competition.date c,
                           Competition.location c))
                (competitor_competitions competitor_id s)))
  end.

(** [POST /api/competitors/add] *)
Definition add_competitor (data : json) (s : store) : store * response :=
  match (id <- py_item data "id" ;;
         name <- py_item data "name" ;;
         nationality <- py_item data "nationality" ;;
         status <- py_item data "status" ;;
         i <- bind_param id ;;
         n <- bind_param name ;;
         nat <- bind_param nationality ;;
         st <- bind_param status ;;
         insert_competitor (Competitor.mk i n nat st) (competitors s)) with
  | Ok cs => (with_competitors cs s, jsonify true "Competitor added successfully.")
  | Raise (IntegrityError _) =>
      (s, jsonify false "Competitor with this ID already exists.")
  | Raise e => (s, server_error e)
  end.

(** [POST /api/competitors/remove] *)
Definition remove_competitor (req : json) (s : store) : store * response :=
  match (comp_id <- py_get req "id" JNull ;; bind_param comp_id) with
  | Raise e => (s, server_error e)
  | Ok i =>
      (with_competitors
         (delete (fun c => sql_eq (Competitor.id c) i) (competitors s)) s,
       jsonify true "Competitor removed successfully.")
  end.

(** The two statements of [edit_competitor]. *)
Definition rename_competitor (o i n nat st : value) (s : store) : result store :=
  cs <- update_competitors
          (fun c => sql_eq (Competitor.id c) o)
          (fun _ => Competitor.mk i n nat st)
          (competitors s) ;;
  ls <- update_links
          (fun cc => sql_eq (Link.competitor_id cc) o)
          (fun cc => Link.mk (Link.competition_name cc) i)
          (competition_competitors s) ;;
  Ok (with_links ls (with_competitors cs s)).

(** [POST /api/competitors/edit] *)
Definition edit_competitor (data : json) (s : store) : store * response :=
  match (new_name <- py_item data "new_name" ;;
         new_id <- py_item data "new_id" ;;
         new_nationality <- py_item data "new_nationality" ;;
         new_status <- py_item data "new_status" ;;
         original_id <- py_item data "original_id" ;;
         n <- bind_param new_name ;;
         i <- bind_param new_id ;;
         nat <- bind_param new_nationality ;;
         st <- bind_param new_status ;;
         o <- bind_param original_id ;;
         rename_competitor o i n nat st s) with
  | Ok s' => (s', jsonify true "Competitor updated successfully.")
  | Raise e => (s, jsonify false (str e))
  end.

(** ** The seed loader *)

(** A seed file that exists either parses as JSON or does not. *)
Inductive document : Type :=
| Malformed
| Parsed (j : json).

(** The three seed files of the working directory, [None] when
    [os.path.exists] answers no. *)
Record files : Type := mkFiles {
  users_json : option document;
  competitions_json : option document;
  competitors_json : option document
}.

Definition exists_ (f : option document) : bool :=
  match f with Some _ => true | None => false end.

(** [with open(path) as f: json.load(f)] *)
Definition json_load (f : option document) : result json :=
  match f with
  | None => Raise FileNotFoundError
  | Some Malformed => Raise JSONDecodeError
  | Some (Parsed j) => Ok j
  end.

Definition empty_store : store := mkStore [] [] [] [].

Definition load_user (entry : string * json) (s : store) : result store :=
  let '(password, details) := entry in
  role <- py_item details "role" ;;
  r <- bind_param role ;;
  Ok (with_users (insert_or_ignore_user (User.mk (Some password) r) (users s)) s).

Definition load_link (name : value) (comp_id : json) (s : store) : result store :=
  ci <- bind_param comp_id ;;
  Ok (with_links
        (insert_or_ignore_link (Link.mk name ci) (competition_competitors s)) s).

Definition load_competition (entry : string * json) (s : store) : result store :=
  let details := snd entry in
  name <- py_item details "name" ;;
  date <- py_item details "date" ;;
  location <- py_item details "location" ;;
  description <- py_item details "description" ;;
  status <- py_item details "status" ;;
  n <- bind_param name ;;
  d <- bind_param date ;;
  l <- bind_param location ;;
  ds <- bind_param description ;;
  st <- bind_param status ;;
  let s1 :=
    with_competitions
      (insert_or_ignore_competition (Competition.mk n d l ds st) (competitions s))
      s in
  if py_contains "competitor_ids" details then
    competitor_ids <- py_item details "competitor_ids" ;;
    ids <- py_iter competitor_ids ;;
    for_each (load_link n) ids s1
  else Ok s1.

Definition load_competitor (entry : string * json) (s : store) : result store :=
  let details := snd entry in
  id <- py_item details "id" ;;
  name <- py_item details "name" ;;
  nationality <- py_item details "nationality" ;;
  status <- py_item details "status" ;;
  i <- bind_param id ;;
  n <- bind_param name ;;
  nat <- bind_param nationality ;;
  st <- bind_param status ;;
  Ok (with_competitors
        (insert_or_ignore_competitor (Competitor.mk i n nat st) (competitors s)) s).

(** The body of the [try] of [load_initial_data] after the existence test. *)
Definition load_documents (fs : files) (s : store) : result store :=
  users_data <- json_load (users_json fs) ;;
  users_items <- py_items users_data ;;
  s1 <- for_each load_user users_items s ;;
  competitions_data <- json_load (competitions_json fs) ;;
  competitions_items <- py_items competitions_data ;;
  s2 <- for_each load_competition competitions_items s1 ;;
  competitors_data <- json_load (competitors_json fs) ;;
  competitors_items <- py_items competitors_data ;;
  for_each load_competitor competitors_items s2.

(** [load_initial_data]: the store after the call and the boolean returned.
    Both [except] clauses return [False]; the rows inserted before the
    exception were never committed. *)
Definition load_initial_data (fs : files) (s : store) : store * bool :=
  if negb (exists_ (users_json fs))
     || negb (exists_ (competitions_json fs))
     || negb (exists_ (competitors_json fs))
  then (s, false)
  else
    match load_documents fs s with
    | Ok s' => (s', true)
    | Raise _ => (s, false)
    end.

(** [cursor.executemany("INSERT OR IGNORE ...", rows)] *)
Definition executemany {row : Type} (stmt : row -> list row -> list row)
           (rows : list row) (t : list row) : list row :=
  fold_left (fun acc r => stmt r acc) rows t.

Definition default_competitions : list Competition.t :=
  [ Competition.mk (Some "Winter Grand Prix") (Some "March 1, 2025")
      (Some "London, UK")
      (Some "The inaugural Winter Grand Prix in the heart of London.")
      (Some "Completed");
    Competition.mk (Some "Spring Cup Championship") (Some "May 15, 2025")
      (Some "Paris, France")
      (Some "An exciting championship for upcoming talents.")
      (Some "Upcoming");
    Competition.mk (Some "Summer Open") (Some "July 20, 2025")
      (Some "Tokyo, Japan") (Some "The biggest event of the year.")
      (Some "Upcoming") ].

Definition default_competitors : list Competitor.t :=
  [ Competitor.mk (Some "COMP-001") (Some "Alex Smith") (Some "American")
      (Some "Active");
    Competitor.mk (Some "COMP-002") (Some "Maria Garcia") (Some "Spanish")
      (Some "Active");
    Competitor.mk (Some "COMP-003") (Some "Kenji Tanaka") (Some "Japanese")
      (Some "Active") ].

Definition default_links : list Link.t :=
  [ Link.mk (Some "Winter Grand Prix") (Some "COMP-001");
    Link.mk (Some "Winter Grand Prix") (Some "COMP-002");
    Link.mk (Some "Spring Cup Championship") (Some "COMP-001");
    Link.mk (Some "Summer Open") (Some "COMP-003") ].

(** [load_default_data] *)
Definition load_default_data (s : store) : store :=
  let s1 :=
    with_users
      (insert_or_ignore_user (User.mk (Some "admin") (Some "admin")) (users s)) s in
  let s2 :=
    with_competitions
      (executemany insert_or_ignore_competition default_competitions
                   (competitions s1)) s1 in
  let s3 :=
    with_competitors
      (executemany insert_or_ignore_competitor default_competitors
                   (competitors s2)) s2 in
  with_links
    (executemany insert_or_ignore_link default_links
                 (competition_competitors s3)) s3.

(** [init_db]: the four tables are dropped and created again, whatever the
    database file held, then seeded. *)
Definition init_db (fs : files) (old : store) : store :=
  let '(s, loaded) := load_initial_data fs empty_store in
  if loaded then s else load_default_data s.

(** ** The router *)

(** One constructor per route of the application; a path parameter is a
    string, a request body a JSON value. *)
Inductive request : Type :=
| PostLogin (body : json)
| PostSignup (body : json)
| GetUsers
| PostUsersAdd (body : json)
| PostUsersRemove (body : json)
| GetCompetitions
| PostCompetitionsAdd (body : json)
| PostCompetitionsRemove (body : json)
| PostCompetitionsEdit (body : json)
| GetCompetitionCompetitors (competition_name : string)
| PostCompetitionsAddCompetitor (body : json)
| GetCompetitors
| GetCompetitorProfile (competitor_id : string)
| PostCompetitorsAdd (body : json)
| PostCompetitorsRemove (body : json)
| PostCompetitorsEdit (body : json).

Definition handle (r : request) (s : store) : store * response :=
  match r with
  | PostLogin b => login b s
  | PostSignup b => signup b s
  | GetUsers => (s, get_users s)
  | PostUsersAdd b => add_user b s
  | PostUsersRemove b => remove_user b s
  | GetCompetitions => (s, get_competitions s)
  | PostCompetitionsAdd b => add_competition b s
  | PostCompetitionsRemove b => remove_competition b s
  | PostCompetitionsEdit b => edit_competition b s
  | GetCompetitionCompetitors n => (s, get_competition_competitors n s)
  | PostCompetitionsAddCompetitor b => add_competitor_to_competition b s
  | GetCompetitors => (s, get_competitors s)
  | GetCompetitorProfile i => (s, get_competitor_profile i s)
  | PostCompetitorsAdd b => add_competitor b s
  | PostCompetitorsRemove b => remove_competitor b s
  | PostCompetitorsEdit b => edit_competitor b s
  end.

(** The stores the running application can be in: the one [init_db]
    leaves, and those a request leads to. *)
Inductive reachable : store -> Prop :=
| reachable_init (fs : files) (old : store) : reachable (init_db fs old)
| reachable_step (r : request) (s : store) :
    reachable s -> reachable (fst (handle r s)).

(** ** Vocabulary of the statements *)

(** The JSON value that binds to a given SQL value. *)
Definition json_of_value (v : value) : json :=
  match v with
  | None => JNull
  | Some s => JStr s
  end.

(** The body carries field [k], a string or [null] that binds to [v]. *)
Definition has (fields : list (string * json)) (k : string) (v : value) : Prop :=
  assoc k fields = Some (json_of_value v).

Definition bindable (j : json) : bool :=
  match j with
  | JNull | JStr _ => true
  | _ => false
  end.

(** The primary keys of a table are pairwise distinct. *)
Fixpoint distinct {row : Type} (same_key : row -> row -> bool) (t : list row)
  : bool :=
  match t with
  | [] => true
  | r :: rest => negb (existsb (same_key r) rest) && distinct same_key rest
  end.

(** The constraints SQLite maintains on the four tables. *)
Definition wf (s : store) : bool :=
  forallb user_filled (users s)
  && distinct user_key (users s)
  && distinct competition_key (competitions s)
  && distinct competitor_key (competitors s)
  && distinct link_key (competition_competitors s).

(** The endpoints that insert a row of an entity table. *)
Inductive insert_endpoint : Type := Signup | AddUser | AddCompetition | AddCompetitor.

Definition post_insert (e : insert_endpoint) : json -> store -> store * response :=
  match e with
  | Signup => signup
  | AddUser => add_user
  | AddCompetition => add_competition
  | AddCompetitor => add_competitor
  end.

Definition key_field (e : insert_endpoint) : string :=
  match e with
  | Signup | AddUser => "password"
  | AddCompetition => "name"
  | AddCompetitor => "id"
  end.

(** The fields the handler subscripts besides the key. *)
Definition required_fields (e : insert_endpoint) : list string :=
  match e with
  | Signup | AddUser => []
  | AddCompetition => ["date"; "location"; "description"]
  | AddCompetitor => ["name"; "nationality"; "status"]
  end.

(** The fields the handler reads with [.get] besides the key. *)
Definition optional_fields (e : insert_endpoint) : list string :=
  match e with
  | AddUser => ["role"]
  | _ => []
  end.

(** The body is a record for the endpoint: its key is the text [k], the
    required fields are there, and every field read is a string or [null]. *)
Definition carries_record (e : insert_endpoint) (fields : list (string * json))
           (k : string) : bool :=
  match assoc (key_field e) fields with
  | Some (JStr k') => String.eqb k' k
  | _ => false
  end
  && forallb (fun f => match assoc f fields with
                       | Some j => bindable j
                       | None => false
                       end) (required_fields e)
  && forallb (fun f => match assoc f fields with
                       | Some j => bindable j
                       | None => true
                       end) (optional_fields e).

(** A row of the endpoint's table has the text [k] as its primary key. *)
Definition key_taken (e : insert_endpoint) (k : string) (s : store) : bool :=
  match e with
  | Signup | AddUser =>
      existsb (fun u => sql_eq (User.password u) (Some k)) (users s)
  | AddCompetition =>
      existsb (fun c => sql_eq (Competition.name c) (Some k)) (competitions s)
  | AddCompetitor =>
      existsb (fun c => sql_eq (Competitor.id c) (Some k)) (competitors s)
  end.

Definition duplicate_message (e : insert_endpoint) : string :=
  match e with
  | Signup | AddUser => "User already exists."
  | AddCompetition => "Competition with this name already exists."
  | AddCompetitor => "Competitor with this ID already exists."
  end.

(** The endpoints that delete a row of an entity table. *)
Inductive remove_endpoint : Type := RemoveUser | RemoveCompetition | RemoveCompetitor.

Definition post_remove (e : remove_endpoint) : json -> store -> store * response :=
  match e with
  | RemoveUser => remove_user
  | RemoveCompetition => remove_competition
  | RemoveCompetitor => remove_competitor
  end.

Definition removed_field (e : remove_endpoint) : string :=
  match e with
  | RemoveUser => "password"
  | RemoveCompetition => "name"
  | RemoveCompetitor => "id"
  end.

Definition removed_message (e : remove_endpoint) : string :=
  match e with
  | RemoveUser => "User removed successfully."
  | RemoveCompetition => "Competition removed successfully."
  | RemoveCompetitor => "Competitor removed successfully."
  end.

(** A row of the endpoint's table is selected by [WHERE key = k]. *)
Definition key_present (e : remove_endpoint) (k : value) (s : store) : bool :=
  match e with
  | RemoveUser => existsb (fun u => sql_eq (User.password u) k) (users s)
  | RemoveCompetition =>
      existsb (fun c => sql_eq (Competition.name c) k) (competitions s)
  | RemoveCompetitor =>
      existsb (fun c => sql_eq (Competitor.id c) k) (competitors s)
  end.

(** The default dataset, as [load_default_data] lists it. *)
Definition default_store : store :=
  mkStore [User.mk (Some "admin") (Some "admin")]
          default_competitions default_competitors default_links.

(** The new id is the id of no competitor row and of no association row. *)
Definition id_unused (i : string) (s : store) : bool :=
  negb (existsb (fun c => sql_eq (Competitor.id c) (Some i)) (competitors s))
  && negb (existsb (fun cc => sql_eq (Link.competitor_id cc) (Some i))
                   (competition_competitors s)).

(** The rows of the two tables after the statements of [edit_competitor]. *)
Definition renamed_competitors (o i n nat st : value) (t : list Competitor.t)
  : list Competitor.t :=
  map (fun c => if sql_eq (Competitor.id c) o
                then Competitor.mk i n nat st else c) t.

Definition renamed_links (o i : value) (t : list Link.t) : list Link.t :=
  map (fun cc => if sql_eq (Link.competitor_id cc) o
                 then Link.mk (Link.competition_name cc) i else cc) t.

(** ** Sample requests and stores *)

(** A second competition under the name of a default one. *)
Definition summer_open_again : list (string * json) :=
  [("name", JStr "Summer Open"); ("date", JStr "August 2, 2026");
   ("location", JStr "Osaka, Japan"); ("description", JNull)].

(** A new competition, sent with a status of its own. *)
Definition autumn_classic : list (string * json) :=
  [("status", JStr "Completed"); ("name", JStr "Autumn Classic");
   ("date", JStr "October 4, 2025"); ("location", JStr "Rome, Italy");
   ("description", JStr "A new event.")].

(** The default dataset after its first competition is removed. *)
Definition winter_removed : store :=
  fst (handle (PostCompetitionsRemove (JObj [("name", JStr "Winter Grand Prix")]))
              (init_db (mkFiles None None None) empty_store)).

(** An assignment that names no row of either table. *)
Definition ghost_assignment : json :=
  JObj [("competition_name", JStr "No Such Cup"); ("competitor_id", JStr "COMP-404")].

(** COMP-001 edited to the id of another row, and to a new id. *)
Definition comp_001_to_002 : json :=
  JObj [("new_name", JStr "Alex Smith"); ("new_id", JStr "COMP-002");
        ("new_nationality", JStr "American"); ("new_status", JStr "Active");
        ("original_id", JStr "COMP-001")].

Definition comp_001_to_099 : list (string * json) :=
  [("new_name", JStr "Alexander Smith"); ("new_id", JStr "COMP-099");
   ("new_nationality", JStr "Canadian"); ("new_status", JStr "Active");
   ("original_id", JStr "COMP-001")].

(** ** Vocabulary of the further statements *)

(** The answer is [success:true]. *)
Definition succeeded (r : response) : bool :=
  match body r with
  | Message true _ => true
  | _ => false
  end.

(** The rows of [competitions] after the statement of [edit_competition]. *)
Definition renamed_competitions (o n d l ds st : value)
           (t : list Competition.t) : list Competition.t :=
  map (fun c => if sql_eq (Competition.name c) o
                then Competition.mk n d l ds st else c) t.

(** The projection of the profile's nested list. *)
Definition name_date_location (c : Competition.t) : value * value * value :=
  (Competition.name c, Competition.date c, Competition.location c).

(** A body with the given password. *)
Definition credentials (k : string) : list (string * json) :=
  [("password", JStr k)].

(** The default dataset after COMP-002 joined the Summer Open. *)
Definition summer_open_joined : store :=
  fst (handle (PostCompetitionsAddCompetitor
                 (JObj [("competition_name", JStr "Summer Open");
                        ("competitor_id", JStr "COMP-002")]))
              (init_db (mkFiles None None None) empty_store)).

(** The Winter Grand Prix renamed. *)
Definition winter_to_frost : list (string * json) :=
  [("new_name", JStr "Frost Grand Prix"); ("new_date", JStr "March 1, 2025");
   ("new_location", JStr "London, UK"); ("new_description", JNull);
   ("new_status", JStr "Completed"); ("original_name", JStr "Winter Grand Prix")].

(** An edit of a competitor that is in no table. *)
Definition comp_404_edit : list (string * json) :=
  [("new_name", JStr "Nobody"); ("new_id", JStr "COMP-405");
   ("new_nationality", JNull); ("new_status", JNull);
   ("original_id", JStr "COMP-404")].

(** A competitor record for a new id. *)
Definition comp_004 : list (string * json) :=
  [("id", JStr "COMP-004"); ("name", JStr "Lena Vogel");
   ("nationality", JStr "German"); ("status", JStr "Active")].

(** Seed files: two users, no competition, no competitor. *)
Definition two_users_files : files :=
  mkFiles
    (Some (Parsed (JObj [("root", JObj [("role", JStr "admin")]);
                         ("guest", JObj [("role", JStr "general")])])))
    (Some (Parsed (JObj [])))
    (Some (Parsed (JObj []))).

(** A seed file the loader cannot use: missing, not JSON, or JSON that is
    not an object. *)
Definition unusable (f : option document) : bool :=
  match f with
  | Some (Parsed (JObj _)) => false
  | _ => true
  end.

(** Seed files of which the second is a JSON list. *)
Definition list_for_competitions : files :=
  mkFiles
    (Some (Parsed (JObj [("root", JObj [("role", JStr "admin")])])))
    (Some (Parsed (JArr [])))
    (Some (Parsed (JObj []))).

(** The competition an entry of competitions.json describes. *)
Definition competition_of (details : json) (c : Competition.t) : Prop :=
  py_item details "name" = Ok (json_of_value (Competition.name c))
  /\ py_item details "date" = Ok (json_of_value (Competition.date c))
  /\ py_item details "location" = Ok (json_of_value (Competition.location c))
  /\ py_item details "description"
     = Ok (json_of_value (Competition.description c))
  /\ py_item details "status" = Ok (json_of_value (Competition.status c)).

(** The competitor an entry of competitors.json describes. *)
Definition competitor_of (details : json) (c : Competitor.t) : Prop :=
  py_item details "id" = Ok (json_of_value (Competitor.id c))
  /\ py_item details "name" = Ok (json_of_value (Competitor.name c))
  /\ py_item details "nationality"
     = Ok (json_of_value (Competitor.nationality c))
  /\ py_item details "status" = Ok (json_of_value (Competitor.status c)).

(** Seed files: one competition filed under another key, with a
    competitor that competitors.json does not have. *)
Definition one_cup_files : files :=
  mkFiles
    (Some (Parsed (JObj [])))
    (Some (Parsed (JObj [("cup-1",
                          JObj [("name", JStr "City Cup");
                                ("date", JStr "June 1, 2025");
                                ("location", JStr "Oslo, Norway");
                                ("description", JNull);
                                ("status", JStr "Upcoming");
                                ("competitor_ids", JArr [JStr "COMP-777"])])])))
    (Some (Parsed (JObj [("x", JObj [("id", JStr "COMP-001");
                                     ("name", JStr "Alex Smith");
                                     ("nationality", JStr "American");
                                     ("status", JStr "Active")])]))).

Definition one_cup_store : store :=
  mkStore []
    [Competition.mk (Some "City Cup") (Some "June 1, 2025")
       (Some "Oslo, Norway") None (Some "Upcoming")]
    [Competitor.mk (Some "COMP-001") (Some "Alex Smith") (Some "American")
       (Some "Active")]
    [Link.mk (Some "City Cup") (Some "COMP-777")].

(** The fields each handler subscripts, in the order Python evaluates
    them. *)
Definition add_competition_subscripts : list string :=
  ["name"; "date"; "location"; "description"].

Definition add_competitor_subscripts : list string :=
  ["id"; "name"; "nationality"; "status"].

Definition edit_competitor_subscripts : list string :=
  ["new_name"; "new_id"; "new_nationality"; "new_status"; "original_id"].

Definition edit_competition_subscripts : list string :=
  ["new_name"; "new_date"; "new_location"; "new_description"; "new_status";
   "original_name"].

(** The competition rows that an association row pairs with a competitor
    id, by name, date and location. *)
Definition linked_competition (competitor_id : string) (s : store)
           (row : value * value * value) : Prop :=
  exists comp k,
    In comp (competitions s)
    /\ Competition.name comp = Some k
    /\ In (Link.mk (Some k) (Some competitor_id)) (competition_competitors s)
    /\ row = name_date_location comp.

(** The handlers that let an exception of the body reach Flask, and the
    two that catch every exception. *)
Definition raising_handlers : list (json -> store -> store * response) :=
  [login; signup; add_user; remove_user; add_competition; remove_competition;
   add_competitor_to_competition; add_competitor; remove_competitor].

Definition catching_handlers : list (json -> store -> store * response) :=
  [edit_competition; edit_competitor].

(** * Properties *)

(** ** SQL comparison and the table statements *)

Lemma sql_eq_sym (a b : value) : sql_eq a b = sql_eq b a.
Proof.
  destruct a, b; simpl; auto using String.eqb_sym.
Qed.

Lemma sql_eq_true (a b : value) :
  sql_eq a b = true <-> exists k, a = Some k /\ b = Some k.
Proof.
  destruct a as [x|], b as [y|]; simpl; split; intros H;
    try discriminate; try (destruct H as (k & H1 & H2); discriminate).
  - apply String.eqb_eq in H. subst. eauto.
  - destruct H as (k & H1 & H2). inversion H1; inversion H2; subst.
    apply String.eqb_refl.
Qed.

Lemma sql_eq_text (a : value) (k : string) :
  sql_eq a (Some k) = true <-> a = Some k.
Proof.
  rewrite sql_eq_true. split.
  - intros (k' & H1 & H2). congruence.
  - intros ->. eauto.
Qed.

Lemma sql_eq_null_r (a : value) : sql_eq a None = false.
Proof. destruct a; reflexivity. Qed.

Lemma existsb_false {A : Type} (p : A -> bool) (l : list A) :
  existsb p l = false <-> forall x, In x l -> p x = false.
Proof.
  induction l as [|a l IH]; simpl.
  - split; [intros _ x [] | reflexivity].
  - rewrite orb_false_iff, IH. split.
    + intros [Ha Hl] x [<-|Hx]; auto.
    + intros H. split; auto.
Qed.

Lemma existsb_same {A : Type} (p q : A -> bool) (l : list A) :
  (forall x, p x = q x) -> existsb p l = existsb q l.
Proof.
  intros H. induction l as [|a l IH]; simpl; [reflexivity|].
  now rewrite H, IH.
Qed.

Section TableFacts.
Context {row : Type}.
Variable filled : row -> bool.
Variable same_key : row -> row -> bool.
Variable not_null_msg unique_msg : string.

Lemma delete_absent (p : row -> bool) (t : list row) :
  existsb p t = false -> delete p t = t.
Proof.
  unfold delete. induction t as [|r t IH]; simpl; [reflexivity|].
  rewrite orb_false_iff. intros [Hr Ht]. rewrite Hr. simpl.
  now rewrite IH.
Qed.

Lemma insert_taken (r : row) (t : list row) :
  existsb (same_key r) t = true ->
  exists msg,
    insert filled same_key not_null_msg unique_msg r t
    = Raise (IntegrityError msg).
Proof.
  intros H. unfold insert. destruct (filled r); simpl; eauto.
  rewrite H. eauto.
Qed.

Lemma insert_new (r : row) (t : list row) :
  filled r = true -> existsb (same_key r) t = false ->
  insert filled same_key not_null_msg unique_msg r t = Ok (t ++ [r]).
Proof.
  intros Hf H. unfold insert. now rewrite Hf, H.
Qed.

(** A statement that goes through leaves every row either as it was or
    as the [SET] clause makes it. *)
Lemma update_from_ok (p : row -> bool) (f : row -> row) :
  forall todo done t,
    update_from filled same_key not_null_msg unique_msg p f done todo = Ok t ->
    t = done ++ map (fun r => if p r then f r else r) todo.
Proof.
  induction todo as [|r rest IH]; simpl; intros done t H.
  - inversion H. now rewrite app_nil_r.
  - destruct (p r).
    + destruct (filled (f r)); simpl in H; [|discriminate].
      destruct (existsb _ _); [discriminate|].
      apply IH in H. now rewrite <- app_assoc in H.
    + apply IH in H. now rewrite <- app_assoc in H.
Qed.

Lemma update_ok (p : row -> bool) (f : row -> row) (t t' : list row) :
  update filled same_key not_null_msg unique_msg p f t = Ok t' ->
  t' = map (fun r => if p r then f r else r) t.
Proof.
  intros H. now apply update_from_ok in H.
Qed.
End TableFacts.

(** ** Request bodies *)

Lemma bind_param_value (v : value) : bind_param (json_of_value v) = Ok v.
Proof. destruct v; reflexivity. Qed.

Lemma bindable_value (j : json) :
  bindable j = true -> exists v, j = json_of_value v.
Proof.
  destruct j; try discriminate; intros _.
  - now exists None.
  - now exists (Some s).
Qed.

Lemma py_item_has (fields : list (string * json)) (k : string) (v : value) :
  has fields k v -> py_item (JObj fields) k = Ok (json_of_value v).
Proof. unfold has. simpl. now intros ->. Qed.

(** ** Inserting under a key that is taken *)

Lemma carried_key (e : insert_endpoint) (fields : list (string * json)) (k : string) :
  carries_record e fields k = true ->
  assoc (key_field e) fields = Some (JStr k).
Proof.
  unfold carries_record. rewrite !andb_true_iff. intros [[H _] _].
  destruct (assoc (key_field e) fields) as [[| k' | |]|]; try discriminate.
  apply String.eqb_eq in H. now subst.
Qed.

Lemma carried_required (e : insert_endpoint) (fields : list (string * json))
      (k f : string) :
  carries_record e fields k = true -> In f (required_fields e) ->
  exists v, has fields f v.
Proof.
  unfold carries_record. rewrite !andb_true_iff. intros [[_ H] _] Hf.
  rewrite forallb_forall in H. specialize (H f Hf). unfold has.
  destruct (assoc f fields) as [j|]; [|discriminate].
  apply bindable_value in H. destruct H as [v ->]. eauto.
Qed.

Lemma taken_user (k : string) (r : value) (t : list User.t) :
  existsb (fun u => sql_eq (User.password u) (Some k)) t = true ->
  existsb (user_key (User.mk (Some k) r)) t = true.
Proof.
  intros H. erewrite existsb_same; [exact H|].
  intros u. unfold user_key. simpl. apply sql_eq_sym with (a := Some k).
Qed.

(** C2. On each of the four insert endpoints, a body that carries a record
    whose primary key (password, competition name, competitor id) is the
    key of a row already in the table is answered with HTTP 200,
    [success:false] and the endpoint's message, and the store (hence the
    row that holds the key) stays as it was. *)
Theorem insert_duplicate_key_rejected :
  forall (e : insert_endpoint) (s : store) (fields : list (string * json))
         (k : string),
    carries_record e fields k = true ->
    key_taken e k s = true ->
    post_insert e (JObj fields) s = (s, jsonify false (duplicate_message e)).
Proof.
  intros e s fields k Hrec Htaken.
  pose proof (carried_key _ _ _ Hrec) as Hkey.
  destruct e; simpl in *.
  - unfold signup. simpl. rewrite Hkey. simpl.
    destruct (insert_taken user_filled user_key
                "NOT NULL constraint failed: users.role"
                "UNIQUE constraint failed: users.password"
                (User.mk (Some k) (Some "general")) (users s)
                (taken_user _ _ _ Htaken)) as [msg Hmsg].
    unfold insert_user. now rewrite Hmsg.
  - unfold add_user. simpl. rewrite Hkey. simpl.
    unfold carries_record in Hrec. simpl in Hrec.
    rewrite !andb_true_iff in Hrec. destruct Hrec as [_ [Hrole _]].
    destruct (assoc "role" fields) as [j|].
    + apply bindable_value in Hrole. destruct Hrole as [r ->].
      rewrite bind_param_value. simpl.
      destruct (insert_taken user_filled user_key
                  "NOT NULL constraint failed: users.role"
                  "UNIQUE constraint failed: users.password"
                  (User.mk (Some k) r) (users s)
                  (taken_user _ _ _ Htaken)) as [msg Hmsg].
      unfold insert_user. now rewrite Hmsg.
    + simpl.
      destruct (insert_taken user_filled user_key
                  "NOT NULL constraint failed: users.role"
                  "UNIQUE constraint failed: users.password"
                  (User.mk (Some k) (Some "general")) (users s)
                  (taken_user _ _ _ Htaken)) as [msg Hmsg].
      unfold insert_user. now rewrite Hmsg.
  - destruct (carried_required _ _ _ "date" Hrec) as [d Hd]; [simpl; tauto|].
    destruct (carried_required _ _ _ "location" Hrec) as [l Hl]; [simpl; tauto|].
    destruct (carried_required _ _ _ "description" Hrec) as [ds Hds]; [simpl; tauto|].
    unfold add_competition.
    rewrite (py_item_has fields "name" (Some k) Hkey).
    rewrite (py_item_has _ _ _ Hd), (py_item_has _ _ _ Hl), (py_item_has _ _ _ Hds).
    simpl bind. rewrite !bind_param_value. simpl bind.
    unfold insert_competition, insert. simpl.
    erewrite existsb_same; [rewrite Htaken; reflexivity|].
    intros c. unfold competition_key. simpl. apply sql_eq_sym with (a := Some k).
  - destruct (carried_required _ _ _ "name" Hrec) as [n Hn]; [simpl; tauto|].
    destruct (carried_required _ _ _ "nationality" Hrec) as [na Hna]; [simpl; tauto|].
    destruct (carried_required _ _ _ "status" Hrec) as [st Hst]; [simpl; tauto|].
    unfold add_competitor.
    rewrite (py_item_has fields "id" (Some k) Hkey).
    rewrite (py_item_has _ _ _ Hn), (py_item_has _ _ _ Hna), (py_item_has _ _ _ Hst).
    simpl bind. rewrite !bind_param_value. simpl bind.
    unfold insert_competitor, insert. simpl.
    erewrite existsb_same; [rewrite Htaken; reflexivity|].
    intros c. unfold competitor_key. simpl. apply sql_eq_sym with (a := Some k).
Qed.

Lemma insert_duplicate_key_rejected_witness :
  carries_record AddCompetition summer_open_again "Summer Open" = true
  /\ key_taken AddCompetition "Summer Open" default_store = true
  /\ post_insert AddCompetition (JObj summer_open_again) default_store
     = (default_store, jsonify false "Competition with this name already exists.").
Proof.
  split; [reflexivity|]. split; [reflexivity|].
  apply (insert_duplicate_key_rejected AddCompetition default_store
           summer_open_again "Summer Open"); reflexivity.
Defined.

(** A [NULL] in a key column is no key: a body without [password] binds
    [NULL], which SQLite never counts as a duplicate, so signing up twice
    without a password stores two rows. *)
Lemma signup_without_password_twice :
  signup (JObj []) (fst (signup (JObj []) default_store))
  = (with_users [User.mk (Some "admin") (Some "admin");
                 User.mk None (Some "general");
                 User.mk None (Some "general")] default_store,
     jsonify true "User created successfully. You can now log in.").
Proof. reflexivity. Qed.

(** ** Adding a competition *)

(** C4. When the body carries [name], [date], [location] and [description]
    and no competition row has that name, [POST /api/competitions/add]
    appends one row with these four values and status ["Upcoming"],
    whatever else the body holds (a [status] field included), and answers
    [success:true]. *)
Theorem add_competition_status_upcoming :
  forall (s : store) (fields : list (string * json)) (n d l ds : value),
    has fields "name" n ->
    has fields "date" d ->
    has fields "location" l ->
    has fields "description" ds ->
    (forall c, In c (competitions s) -> sql_eq (Competition.name c) n = false) ->
    add_competition (JObj fields) s
    = (with_competitions
         (competitions s ++ [Competition.mk n d l ds (Some "Upcoming")]) s,
       jsonify true "Competition added successfully.").
Proof.
  intros s fields n d l ds Hn Hd Hl Hds Hnew.
  unfold add_competition.
  rewrite (py_item_has _ _ _ Hn), (py_item_has _ _ _ Hd),
    (py_item_has _ _ _ Hl), (py_item_has _ _ _ Hds).
  simpl bind. rewrite !bind_param_value. simpl bind.
  unfold insert_competition. rewrite insert_new; [reflexivity | reflexivity |].
  apply existsb_false. intros c Hc. unfold competition_key. simpl.
  rewrite sql_eq_sym. auto.
Qed.

Lemma add_competition_status_upcoming_witness :
  add_competition (JObj autumn_classic) default_store
  = (with_competitions
       (competitions default_store
        ++ [Competition.mk (Some "Autumn Classic") (Some "October 4, 2025")
              (Some "Rome, Italy") (Some "A new event.") (Some "Upcoming")])
       default_store,
     jsonify true "Competition added successfully.").
Proof.
  apply (add_competition_status_upcoming default_store autumn_classic
           (Some "Autumn Classic") (Some "October 4, 2025")
           (Some "Rome, Italy") (Some "A new event."));
    try reflexivity.
  intros c Hc. simpl in Hc.
  destruct Hc as [<-|[<-|[<-|[]]]]; reflexivity.
Defined.

(** ** Removing rows *)

(** C6. On each of the three remove endpoints, a body whose key field is a
    string, [null] or absent is answered with HTTP 200 and [success:true],
    also when no row of the table has that key; in that case the store
    stays as it was. *)
Theorem remove_absent_key_noop :
  forall (e : remove_endpoint) (s : store) (fields : list (string * json))
         (k : value),
    py_get (JObj fields) (removed_field e) JNull = Ok (json_of_value k) ->
    snd (post_remove e (JObj fields) s) = jsonify true (removed_message e)
    /\ (key_present e k s = false -> fst (post_remove e (JObj fields) s) = s).
Proof.
  intros e s fields k Hk.
  destruct e;
    cbn [post_remove removed_field removed_message key_present] in *.
  - unfold remove_user. rewrite Hk. simpl bind. rewrite bind_param_value.
    split; [reflexivity|]. intros Habsent. simpl.
    rewrite delete_absent by exact Habsent. now destruct s.
  - unfold remove_competition. rewrite Hk. simpl bind. rewrite bind_param_value.
    split; [reflexivity|]. intros Habsent. simpl.
    rewrite delete_absent by exact Habsent. now destruct s.
  - unfold remove_competitor. rewrite Hk. simpl bind. rewrite bind_param_value.
    split; [reflexivity|]. intros Habsent. simpl.
    rewrite delete_absent by exact Habsent. now destruct s.
Qed.

Lemma remove_absent_key_noop_witness :
  key_present RemoveCompetitor (Some "COMP-404") default_store = false
  /\ post_remove RemoveCompetitor (JObj [("id", JStr "COMP-404")]) default_store
     = (default_store, jsonify true "Competitor removed successfully.").
Proof.
  split; [reflexivity|].
  destruct (remove_absent_key_noop RemoveCompetitor default_store
              [("id", JStr "COMP-404")] (Some "COMP-404") eq_refl)
    as [Hanswer Hstore].
  specialize (Hstore eq_refl).
  destruct (post_remove RemoveCompetitor _ default_store) as [s' answer].
  simpl in Hanswer, Hstore. now subst.
Defined.

(** C9. Removing a competition or a competitor leaves the association
    table as it was; once the row with the given key is gone, the
    association rows that name the key are still in the store. *)
Theorem remove_keeps_associations :
  forall (req : json) (s : store),
    competition_competitors (fst (remove_competition req s))
    = competition_competitors s
    /\ competition_competitors (fst (remove_competitor req s))
       = competition_competitors s
    /\ (forall k, py_get req "name" JNull = Ok (JStr k) ->
        forall c, In c (competitions (fst (remove_competition req s))) ->
                  Competition.name c <> Some k)
    /\ (forall k, py_get req "id" JNull = Ok (JStr k) ->
        forall c, In c (competitors (fst (remove_competitor req s))) ->
                  Competitor.id c <> Some k).
Proof.
  intros req s. unfold remove_competition, remove_competitor.
  split; [|split; [|split]].
  - destruct (name <- py_get req "name" JNull ;; bind_param name); reflexivity.
  - destruct (comp_id <- py_get req "id" JNull ;; bind_param comp_id); reflexivity.
  - intros k -> c. simpl. unfold delete. rewrite filter_In.
    intros [_ Hc] Hk. rewrite Hk in Hc. simpl in Hc.
    now rewrite String.eqb_refl in Hc.
  - intros k -> c. simpl. unfold delete. rewrite filter_In.
    intros [_ Hc] Hk. rewrite Hk in Hc. simpl in Hc.
    now rewrite String.eqb_refl in Hc.
Qed.

Lemma remove_keeps_associations_witness :
  let req := JObj [("name", JStr "Winter Grand Prix")] in
  let s' := fst (remove_competition req default_store) in
  competition_competitors s' = default_links
  /\ forall c, In c (competitions s') ->
               Competition.name c <> Some "Winter Grand Prix".
Proof.
  intros req s'.
  pose proof (remove_keeps_associations req default_store) as (H1 & _ & H3 & _).
  split.
  - exact H1.
  - exact (H3 "Winter Grand Prix" eq_refl).
Defined.

(** ** Start-up *)

(** C7. When one of the three seed files is missing, [load_initial_data]
    returns [False] with the tables as it found them, whatever the files
    that are there hold, and [init_db] leaves the default dataset: one
    admin user, three competitions, three competitors and four
    association rows. *)
Theorem missing_seed_file_loads_defaults :
  forall (fs : files) (old s : store),
    users_json fs = None \/ competitions_json fs = None
    \/ competitors_json fs = None ->
    load_initial_data fs s = (s, false)
    /\ init_db fs old = default_store
    /\ users default_store = [User.mk (Some "admin") (Some "admin")]
    /\ List.length (competitions default_store) = 3
    /\ List.length (competitors default_store) = 3
    /\ List.length (competition_competitors default_store) = 4.
Proof.
  intros fs old s Hmissing.
  assert (Hload : forall s0, load_initial_data fs s0 = (s0, false)).
  { intros s0. unfold load_initial_data.
    destruct Hmissing as [H|[H|H]]; rewrite H; simpl;
      rewrite ?orb_true_r; reflexivity. }
  split; [apply Hload|]. split; [|repeat split].
  unfold init_db. rewrite Hload. reflexivity.
Qed.

Lemma missing_seed_file_loads_defaults_witness :
  let fs :=
    mkFiles (Some (Parsed (JObj [("secret", JObj [("role", JStr "admin")])])))
            None (Some Malformed) in
  load_initial_data fs empty_store = (empty_store, false)
  /\ init_db fs empty_store = default_store.
Proof.
  intros fs.
  pose proof (missing_seed_file_loads_defaults fs empty_store empty_store
                (or_intror (or_introl eq_refl))) as (H1 & H2 & _).
  split; assumption.
Defined.

(** C8. With none of the seed files present, the users table after
    start-up is the single row (admin, admin), and [GET /api/users]
    answers with exactly that row. *)
Theorem no_seed_files_single_admin :
  forall old : store,
    let s := init_db (mkFiles None None None) old in
    users s = [User.mk (Some "admin") (Some "admin")]
    /\ get_users s
       = mkResponse 200 (UserRows [User.mk (Some "admin") (Some "admin")]).
Proof.
  intros old. split; reflexivity.
Qed.

(** ** The two joins *)

Lemma link_eta (cc : Link.t) (a b : string) :
  Link.competition_name cc = Some a -> Link.competitor_id cc = Some b ->
  cc = Link.mk (Some a) (Some b).
Proof. destruct cc; simpl; congruence. Qed.

(** A row is in the listing of a competition name exactly when it is a
    competitor row whose id some association row pairs with the name. *)
Lemma competition_members_spec (competition_name : string) (s : store)
      (c : Competitor.t) :
  In c (competition_members competition_name s)
  <-> In c (competitors s)
      /\ exists k, Competitor.id c = Some k
                   /\ In (Link.mk (Some competition_name) (Some k))
                         (competition_competitors s).
Proof.
  unfold competition_members. rewrite in_flat_map. split.
  - intros (c' & Hc' & Hin). apply in_flat_map in Hin.
    destruct Hin as (cc & Hcc & Hin).
    destruct (sql_eq (Competitor.id c') (Link.competitor_id cc)
              && sql_eq (Link.competition_name cc) (Some competition_name))
      eqn:E; [|destruct Hin].
    destruct Hin as [<-|[]]. apply andb_true_iff in E. destruct E as [E1 E2].
    apply sql_eq_true in E1. destruct E1 as (k & Hid & Hk).
    apply sql_eq_text in E2.
    split; [assumption|]. exists k. split; [assumption|].
    now rewrite <- (link_eta cc _ _ E2 Hk).
  - intros (Hc & k & Hid & Hcc). exists c. split; [assumption|].
    apply in_flat_map. eexists. split; [exact Hcc|].
    simpl. rewrite Hid. simpl. rewrite !String.eqb_refl. simpl. now left.
Qed.

Lemma competitor_competitions_spec (competitor_id : string) (s : store)
      (c : Competition.t) :
  In c (competitor_competitions competitor_id s)
  <-> In c (competitions s)
      /\ exists k, Competition.name c = Some k
                   /\ In (Link.mk (Some k) (Some competitor_id))
                         (competition_competitors s).
Proof.
  unfold competitor_competitions. rewrite in_flat_map. split.
  - intros (c' & Hc' & Hin). apply in_flat_map in Hin.
    destruct Hin as (cc & Hcc & Hin).
    destruct (sql_eq (Competition.name c') (Link.competition_name cc)
              && sql_eq (Link.competitor_id cc) (Some competitor_id))
      eqn:E; [|destruct Hin].
    destruct Hin as [<-|[]]. apply andb_true_iff in E. destruct E as [E1 E2].
    apply sql_eq_true in E1. destruct E1 as (k & Hname & Hk).
    apply sql_eq_text in E2.
    split; [assumption|]. exists k. split; [assumption|].
    now rewrite <- (link_eta cc _ _ Hk E2).
  - intros (Hc & k & Hname & Hcc). exists c. split; [assumption|].
    apply in_flat_map. eexists. split; [exact Hcc|].
    simpl. rewrite Hname. simpl. rewrite !String.eqb_refl. simpl. now left.
Qed.

(** ** The competitor profile *)

(** C5. [GET /api/competitors/<id>/profile] answers HTTP 404 with
    [success:false] when no competitor row has the id; otherwise it answers
    HTTP 200 with a competitor row of that id and the list of (name, date,
    location) of the competition rows that an association row pairs with
    the id. *)
Theorem competitor_profile_found_or_404 :
  forall (competitor_id : string) (s : store),
    ((forall c, In c (competitors s) -> Competitor.id c <> Some competitor_id) ->
     get_competitor_profile competitor_id s
     = mkResponse 404 (Message false "Competitor not found."))
    /\ ((exists c, In c (competitors s) /\ Competitor.id c = Some competitor_id) ->
        exists c comps,
          In c (competitors s) /\ Competitor.id c = Some competitor_id
          /\ get_competitor_profile competitor_id s
             = mkResponse 200 (Profile c comps)
          /\ forall n d l,
               In (n, d, l) comps
               <-> exists comp k,
                     In comp (competitions s)
                     /\ Competition.name comp = Some k
                     /\ In (Link.mk (Some k) (Some competitor_id))
                           (competition_competitors s)
                     /\ n = Competition.name comp
                     /\ d = Competition.date comp
                     /\ l = Competition.location comp).
Proof.
  intros competitor_id s. unfold get_competitor_profile. split.
  - intros Habsent.
    destruct (find _ (competitors s)) as [c|] eqn:E; [|reflexivity].
    apply find_some in E. destruct E as [Hc E]. apply sql_eq_text in E.
    now elim (Habsent c Hc).
  - intros (c0 & Hc0 & Hid0).
    destruct (find _ (competitors s)) as [c|] eqn:E.
    + apply find_some in E. destruct E as [Hc E]. apply sql_eq_text in E.
      exists c. eexists. repeat split; try eassumption.
      * intros Hin. apply in_map_iff in Hin.
        destruct Hin as (comp & Heq & Hcomp).
        apply competitor_competitions_spec in Hcomp.
        destruct Hcomp as (Hcomp & k & Hname & Hlink).
        exists comp, k. inversion Heq. auto 10.
      * intros (comp & k & Hcomp & Hname & Hlink & -> & -> & ->).
        apply in_map_iff. exists comp. split; [reflexivity|].
        apply competitor_competitions_spec. eauto.
    + apply find_none with (x := c0) in E; [|assumption].
      rewrite Hid0 in E. simpl in E. now rewrite String.eqb_refl in E.
Qed.

Lemma competitor_profile_found_or_404_witness :
  get_competitor_profile "COMP-404" default_store
  = mkResponse 404 (Message false "Competitor not found.").
Proof.
  apply (proj1 (competitor_profile_found_or_404 "COMP-404" default_store)).
  intros c Hc. simpl in Hc.
  destruct Hc as [<-|[<-|[<-|[]]]]; discriminate.
Defined.

(** ** Listing the competitors of a competition *)

(** C10, as the claim states it, fails: after the competition
    "Winter Grand Prix" is removed from the default dataset, no competition
    row has that name and its listing still has two competitors. *)
Lemma listing_of_removed_competition_not_empty :
  reachable winter_removed
  /\ existsb (fun c => sql_eq (Competition.name c) (Some "Winter Grand Prix"))
             (competitions winter_removed) = false
  /\ get_competition_competitors "Winter Grand Prix" winter_removed
     = mkResponse 200
         (NameNationality [(Some "Alex Smith", Some "American");
                           (Some "Maria Garcia", Some "Spanish")]).
Proof.
  split; [|split].
  - apply reachable_step, reachable_init.
  - reflexivity.
  - reflexivity.
Qed.

(** C10, amended. For every competition name, with or without a
    competition row, [GET /api/competitions/<name>/competitors] answers
    HTTP 200 with the (name, nationality) pairs of the competitor rows
    that an association row pairs with the name; the list is empty when no
    association row carries the name, and the answer is never a 404 or an
    error object. *)
Theorem competition_listing_follows_associations :
  forall (competition_name : string) (s : store),
    exists rows,
      get_competition_competitors competition_name s
      = mkResponse 200 (NameNationality rows)
      /\ (forall n nat,
             In (n, nat) rows
             <-> exists c k,
                   In c (competitors s)
                   /\ Competitor.id c = Some k
                   /\ In (Link.mk (Some competition_name) (Some k))
                         (competition_competitors s)
                   /\ n = Competitor.name c
                   /\ nat = Competitor.nationality c)
      /\ ((forall cc, In cc (competition_competitors s) ->
                      Link.competition_name cc <> Some competition_name) ->
          rows = []).
Proof.
  intros competition_name s. eexists. split; [reflexivity|]. split.
  - intros n nat. rewrite in_map_iff. split.
    + intros (c & Heq & Hc). apply competition_members_spec in Hc.
      destruct Hc as (Hc & k & Hid & Hlink).
      exists c, k. inversion Heq. auto 10.
    + intros (c & k & Hc & Hid & Hlink & -> & ->).
      exists c. split; [reflexivity|].
      apply competition_members_spec. eauto.
  - intros Hnone.
    destruct (competition_members competition_name s) as [|c rest] eqn:E;
      [reflexivity|].
    assert (Hc : In c (competition_members competition_name s))
      by (rewrite E; now left).
    apply competition_members_spec in Hc.
    destruct Hc as (_ & k & _ & Hlink).
    now elim (Hnone _ Hlink).
Qed.

Lemma competition_listing_follows_associations_witness :
  get_competition_competitors "Autumn Classic" default_store
  = mkResponse 200 (NameNationality []).
Proof.
  destruct (competition_listing_follows_associations "Autumn Classic"
              default_store) as (rows & Hresp & _ & Hempty).
  rewrite Hresp, Hempty; [reflexivity|].
  intros cc Hcc. simpl in Hcc.
  destruct Hcc as [<-|[<-|[<-|[<-|[]]]]]; discriminate.
Defined.

(** ** Assigning a competitor to a competition *)

(** C3, as the claim states it, fails: on the default dataset there is
    neither a competition "No Such Cup" nor a competitor "COMP-404", and
    the endpoint stores the pair and answers [success:true]. *)
Lemma assignment_of_unknown_keys_accepted :
  existsb (fun c => sql_eq (Competition.name c) (Some "No Such Cup"))
          (competitions default_store) = false
  /\ existsb (fun c => sql_eq (Competitor.id c) (Some "COMP-404"))
             (competitors default_store) = false
  /\ add_competitor_to_competition ghost_assignment default_store
     = (with_links
          (default_links ++ [Link.mk (Some "No Such Cup") (Some "COMP-404")])
          default_store,
        jsonify true "Competitor assigned successfully.").
Proof.
  repeat split.
Qed.

Lemma link_taken (a b : string) (t : list Link.t) :
  existsb (link_key (Link.mk (Some a) (Some b))) t = true
  <-> In (Link.mk (Some a) (Some b)) t.
Proof.
  rewrite existsb_exists. split.
  - intros (cc & Hcc & H). unfold link_key in H.
    cbn [Link.competition_name Link.competitor_id] in H.
    apply andb_true_iff in H. destruct H as [H1 H2].
    rewrite sql_eq_sym in H1, H2.
    apply sql_eq_text in H1, H2. now rewrite <- (link_eta cc a b H1 H2).
  - intros H. eexists. split; [exact H|].
    unfold link_key. simpl. now rewrite !String.eqb_refl.
Qed.

(** C3, amended. [POST /api/competitions/add_competitor] answers
    [success:false] when [competition_name] or [competitor_id] is absent
    from the body, [null] or empty, and when the pair is already an
    association row; when both are non-empty strings and the pair is new
    it appends the pair and answers [success:true], whether or not a
    competition row or a competitor row has these keys. *)
Theorem add_competitor_to_competition_cases :
  forall (s : store) (fields : list (string * json)),
    (forall cn ci,
        py_get (JObj fields) "competition_name" JNull = Ok cn ->
        py_get (JObj fields) "competitor_id" JNull = Ok ci ->
        truthy cn = false \/ truthy ci = false ->
        add_competitor_to_competition (JObj fields) s
        = (s, jsonify false "Competition name and competitor ID are required."))
    /\ (forall a b,
           assoc "competition_name" fields = Some (JStr a) -> a <> "" ->
           assoc "competitor_id" fields = Some (JStr b) -> b <> "" ->
           (In (Link.mk (Some a) (Some b)) (competition_competitors s) ->
            add_competitor_to_competition (JObj fields) s
            = (s, jsonify false
                    "Competitor is already assigned to this competition."))
           /\ (~ In (Link.mk (Some a) (Some b)) (competition_competitors s) ->
               add_competitor_to_competition (JObj fields) s
               = (with_links
                    (competition_competitors s ++ [Link.mk (Some a) (Some b)]) s,
                  jsonify true "Competitor assigned successfully."))).
Proof.
  intros s fields. split.
  - intros cn ci Hcn Hci Hfalsy. unfold add_competitor_to_competition.
    rewrite Hcn, Hci. simpl bind. cbv iota.
    destruct Hfalsy as [-> | ->]; simpl; rewrite ?orb_true_r; reflexivity.
  - intros a b Ha Hna Hb Hnb.
    apply String.eqb_neq in Hna, Hnb.
    unfold add_competitor_to_competition. simpl py_get. rewrite Ha, Hb.
    simpl. rewrite Hna, Hnb. simpl. unfold insert_link, insert. simpl.
    split; intros Hin.
    + apply link_taken in Hin. now rewrite Hin.
    + destruct (existsb _ _) eqn:E; [|reflexivity].
      apply link_taken in E. contradiction.
Qed.

Lemma add_competitor_to_competition_cases_witness :
  add_competitor_to_competition
    (JObj [("competition_name", JStr "Summer Open"); ("competitor_id", JStr "COMP-003")])
    default_store
  = (default_store,
     jsonify false "Competitor is already assigned to this competition.").
Proof.
  refine (proj1 (proj2 (add_competitor_to_competition_cases default_store
                          [("competition_name", JStr "Summer Open");
                           ("competitor_id", JStr "COMP-003")])
                       "Summer Open" "COMP-003" eq_refl _ eq_refl _) _).
  - discriminate.
  - discriminate.
  - simpl. tauto.
Defined.

(** ** The key constraints are an invariant *)

Lemma bind_ok {A B : Type} (m : result A) (k : A -> result B) (b : B) :
  bind m k = Ok b -> exists a, m = Ok a /\ k a = Ok b.
Proof.
  destruct m as [a|e]; simpl; intros H; [eauto | discriminate].
Qed.

Ltac invert_bind H :=
  let a := fresh "a" in
  let Ha := fresh "Ha" in
  apply bind_ok in H; destruct H as (a & Ha & H).

Ltac invert_binds H := repeat invert_bind H.

Lemma for_each_invariant {A S : Type} (P : S -> Prop)
      (body : A -> S -> result S) :
  (forall x s s', body x s = Ok s' -> P s -> P s') ->
  forall xs s s', for_each body xs s = Ok s' -> P s -> P s'.
Proof.
  intros Hbody. induction xs as [|x xs IH]; simpl; intros s s' H Hs.
  - inversion H. now subst.
  - apply bind_ok in H. destruct H as (s1 & H1 & H). eauto.
Qed.

Section Distinct.
Context {row : Type}.
Variable filled : row -> bool.
Variable same_key : row -> row -> bool.
Variable not_null_msg unique_msg : string.
Hypothesis same_key_sym : forall a b, same_key a b = same_key b a.

Lemma distinct_middle (l1 l2 : list row) (x : row) :
  distinct same_key (l1 ++ x :: l2) = true
  <-> distinct same_key (l1 ++ l2) = true
      /\ existsb (same_key x) (l1 ++ l2) = false.
Proof.
  induction l1 as [|a l1 IH]; simpl.
  - rewrite andb_true_iff, negb_true_iff. tauto.
  - rewrite !andb_true_iff, !negb_true_iff, IH.
    rewrite !existsb_app. simpl. rewrite !orb_false_iff.
    rewrite (same_key_sym x a). tauto.
Qed.

Lemma distinct_snoc (t : list row) (r : row) :
  distinct same_key t = true -> existsb (same_key r) t = false ->
  distinct same_key (t ++ [r]) = true.
Proof.
  intros Ht Hr. apply distinct_middle. now rewrite app_nil_r.
Qed.

Lemma insert_distinct (r : row) (t t' : list row) :
  insert filled same_key not_null_msg unique_msg r t = Ok t' ->
  distinct same_key t = true -> distinct same_key t' = true.
Proof.
  unfold insert. destruct (negb (filled r)); [discriminate|].
  destruct (existsb (same_key r) t) eqn:E; [discriminate|].
  intros H Ht. inversion H. now apply distinct_snoc.
Qed.

Lemma insert_filled (r : row) (t t' : list row) :
  insert filled same_key not_null_msg unique_msg r t = Ok t' ->
  forallb filled t = true -> forallb filled t' = true.
Proof.
  unfold insert. destruct (filled r) eqn:Er; simpl; [|discriminate].
  destruct (existsb (same_key r) t); [discriminate|].
  intros H Ht. inversion H. rewrite forallb_app, Ht. simpl. now rewrite Er.
Qed.

Lemma insert_or_ignore_distinct (r : row) (t : list row) :
  distinct same_key t = true ->
  distinct same_key (insert_or_ignore filled same_key r t) = true.
Proof.
  unfold insert_or_ignore. destruct (negb (filled r)); [auto|].
  destruct (existsb (same_key r) t) eqn:E; [auto|].
  intros Ht. now apply distinct_snoc.
Qed.

Lemma insert_or_ignore_filled (r : row) (t : list row) :
  forallb filled t = true ->
  forallb filled (insert_or_ignore filled same_key r t) = true.
Proof.
  unfold insert_or_ignore. destruct (filled r) eqn:Er; simpl; [|auto].
  destruct (existsb (same_key r) t); [auto|].
  intros Ht. rewrite forallb_app, Ht. simpl. now rewrite Er.
Qed.

Lemma delete_distinct (p : row -> bool) (t : list row) :
  distinct same_key t = true -> distinct same_key (delete p t) = true.
Proof.
  unfold delete. induction t as [|r t IH]; simpl; [auto|].
  rewrite andb_true_iff, negb_true_iff. intros [Hr Ht].
  destruct (negb (p r)); simpl; [|auto].
  rewrite IH by assumption. rewrite andb_true_r, negb_true_iff.
  apply existsb_false. intros x Hx. apply filter_In in Hx.
  rewrite existsb_false in Hr. now apply Hr.
Qed.

Lemma delete_filled (p : row -> bool) (t : list row) :
  forallb filled t = true -> forallb filled (delete p t) = true.
Proof.
  unfold delete. rewrite !forallb_forall. intros H x Hx.
  apply filter_In in Hx. now apply H.
Qed.

Lemma update_from_distinct (p : row -> bool) (f : row -> row) :
  forall todo done t,
    update_from filled same_key not_null_msg unique_msg p f done todo = Ok t ->
    distinct same_key (done ++ todo) = true ->
    distinct same_key t = true.
Proof.
  induction todo as [|r rest IH]; simpl; intros done t H Hd.
  - inversion H. subst. now rewrite app_nil_r in Hd.
  - apply distinct_middle in Hd. destruct Hd as [Hd Hr].
    destruct (p r).
    + destruct (negb (filled (f r))); [discriminate|].
      destruct (existsb (same_key (f r)) (done ++ rest)) eqn:E; [discriminate|].
      apply IH in H; [assumption|].
      rewrite <- app_assoc. simpl. now apply distinct_middle.
    + apply IH in H; [assumption|].
      rewrite <- app_assoc. simpl. now apply distinct_middle.
Qed.

Lemma update_distinct (p : row -> bool) (f : row -> row) (t t' : list row) :
  update filled same_key not_null_msg unique_msg p f t = Ok t' ->
  distinct same_key t = true -> distinct same_key t' = true.
Proof.
  intros H Ht. now apply update_from_distinct in H.
Qed.

(** An [UPDATE] that leaves the key of the rows it changes alone goes
    through on a table with distinct keys. *)
Lemma update_from_same_keys (p : row -> bool) (f : row -> row) :
  (forall r, p r = true -> filled (f r) = true) ->
  (forall r x, p r = true -> same_key (f r) x = same_key r x) ->
  forall todo done,
    distinct same_key (done ++ todo) = true ->
    update_from filled same_key not_null_msg unique_msg p f done todo
    = Ok (done ++ map (fun r => if p r then f r else r) todo).
Proof.
  intros Hfill Hkeep. induction todo as [|r rest IH]; simpl; intros done Hd.
  - now rewrite app_nil_r.
  - apply distinct_middle in Hd. destruct Hd as [Hd Hr].
    destruct (p r) eqn:Ep.
    + rewrite Hfill by assumption. simpl.
      rewrite (existsb_same _ (same_key r)) by (intros x; now apply Hkeep).
      rewrite Hr, IH.
      * now rewrite <- app_assoc.
      * rewrite <- app_assoc. simpl. apply distinct_middle.
        split; [assumption|].
        now rewrite (existsb_same _ (same_key r)) by (intros x; now apply Hkeep).
    + rewrite IH.
      * now rewrite <- app_assoc.
      * rewrite <- app_assoc. simpl. now apply distinct_middle.
Qed.

(** An [UPDATE] that moves the rows it changes to keys no row has, two
    changed rows colliding only if they did before, goes through on a
    table with distinct keys. *)
Lemma update_from_fresh_keys (p : row -> bool) (f : row -> row) :
  (forall r, p r = true -> filled (f r) = true) ->
  (forall r r', p r = true -> p r' = true ->
                same_key (f r) (f r') = same_key r r') ->
  forall todo done,
    (forall r x, In r todo -> p r = true -> In x todo ->
                 same_key (f r) x = false) ->
    (forall r x, In r todo -> p r = true -> In x done ->
                 same_key (f r) x = false) ->
    distinct same_key todo = true ->
    update_from filled same_key not_null_msg unique_msg p f done todo
    = Ok (done ++ map (fun r => if p r then f r else r) todo).
Proof.
  intros Hfill Himg.
  induction todo as [|r rest IH]; simpl; intros done Hfresh Hdone Hd.
  - now rewrite app_nil_r.
  - apply andb_true_iff in Hd. destruct Hd as [Hr Hd].
    apply negb_true_iff in Hr. rewrite existsb_false in Hr.
    destruct (p r) eqn:Ep.
    + rewrite Hfill by assumption. simpl.
      assert (E : existsb (same_key (f r)) (done ++ rest) = false).
      { apply existsb_false. intros x Hx. apply in_app_or in Hx.
        destruct Hx as [Hx|Hx]; [apply Hdone | apply Hfresh]; auto. }
      rewrite E, IH; auto.
      * now rewrite <- app_assoc.
      * intros r' x Hr' Hp Hx. apply in_app_or in Hx.
        destruct Hx as [Hx|[<-|[]]]; [now apply Hdone; auto|].
        rewrite Himg by assumption. rewrite same_key_sym. now apply Hr.
    + rewrite IH; auto.
      * now rewrite <- app_assoc.
      * intros r' x Hr' Hp Hx. apply in_app_or in Hx.
        destruct Hx as [Hx|[<-|[]]]; [now apply Hdone; auto|].
        apply Hfresh; auto.
Qed.
End Distinct.

Lemma user_key_sym (a b : User.t) : user_key a b = user_key b a.
Proof. apply sql_eq_sym. Qed.

Lemma competition_key_sym (a b : Competition.t) :
  competition_key a b = competition_key b a.
Proof. apply sql_eq_sym. Qed.

Lemma competitor_key_sym (a b : Competitor.t) :
  competitor_key a b = competitor_key b a.
Proof. apply sql_eq_sym. Qed.

Lemma link_key_sym (a b : Link.t) : link_key a b = link_key b a.
Proof.
  unfold link_key.
  now rewrite (sql_eq_sym (Link.competition_name a)),
    (sql_eq_sym (Link.competitor_id a)).
Qed.

Lemma wf_iff (s : store) :
  wf s = true
  <-> forallb user_filled (users s) = true
      /\ distinct user_key (users s) = true
      /\ distinct competition_key (competitions s) = true
      /\ distinct competitor_key (competitors s) = true
      /\ distinct link_key (competition_competitors s) = true.
Proof. unfold wf. rewrite !andb_true_iff. tauto. Qed.

Lemma wf_with_users (us : list User.t) (s : store) :
  wf s = true -> forallb user_filled us = true ->
  distinct user_key us = true -> wf (with_users us s) = true.
Proof. rewrite !wf_iff. simpl. tauto. Qed.

Lemma wf_with_competitions (cs : list Competition.t) (s : store) :
  wf s = true -> distinct competition_key cs = true ->
  wf (with_competitions cs s) = true.
Proof. rewrite !wf_iff. simpl. tauto. Qed.

Lemma wf_with_competitors (cs : list Competitor.t) (s : store) :
  wf s = true -> distinct competitor_key cs = true ->
  wf (with_competitors cs s) = true.
Proof. rewrite !wf_iff. simpl. tauto. Qed.

Lemma wf_with_links (ls : list Link.t) (s : store) :
  wf s = true -> distinct link_key ls = true -> wf (with_links ls s) = true.
Proof. rewrite !wf_iff. simpl. tauto. Qed.

Lemma signup_wf (req : json) (s : store) :
  wf s = true -> wf (fst (signup req s)) = true.
Proof.
  intros Hwf. pose proof (proj1 (wf_iff s) Hwf) as (Hf & Hu & _).
  unfold signup. destruct (py_get req "password" JNull); [|exact Hwf].
  destruct (bind _ _) as [us|e] eqn:E.
  - invert_binds E. apply wf_with_users; [assumption| |].
    + eapply insert_filled; eassumption.
    + eapply insert_distinct; eauto using user_key_sym.
  - destruct e; exact Hwf.
Qed.

Lemma add_user_wf (req : json) (s : store) :
  wf s = true -> wf (fst (add_user req s)) = true.
Proof.
  intros Hwf. pose proof (proj1 (wf_iff s) Hwf) as (Hf & Hu & _).
  unfold add_user. destruct (bind _ _) as [[password role]|]; [|exact Hwf].
  destruct (bind _ _) as [us|e] eqn:E.
  - invert_binds E. apply wf_with_users; [assumption| |].
    + eapply insert_filled; eassumption.
    + eapply insert_distinct; eauto using user_key_sym.
  - destruct e; exact Hwf.
Qed.

Lemma remove_user_wf (req : json) (s : store) :
  wf s = true -> wf (fst (remove_user req s)) = true.
Proof.
  intros Hwf. pose proof (proj1 (wf_iff s) Hwf) as (Hf & Hu & _).
  unfold remove_user. destruct (bind _ _); [|exact Hwf].
  apply wf_with_users; [assumption| |].
  - now apply delete_filled.
  - now apply delete_distinct.
Qed.

Lemma add_competition_wf (data : json) (s : store) :
  wf s = true -> wf (fst (add_competition data s)) = true.
Proof.
  intros Hwf. pose proof (proj1 (wf_iff s) Hwf) as (_ & _ & Hc & _).
  unfold add_competition. destruct (bind _ _) as [cs|e] eqn:E.
  - invert_binds E. apply wf_with_competitions; [assumption|].
    eapply insert_distinct; eauto using competition_key_sym.
  - destruct e; exact Hwf.
Qed.

Lemma remove_competition_wf (req : json) (s : store) :
  wf s = true -> wf (fst (remove_competition req s)) = true.
Proof.
  intros Hwf. pose proof (proj1 (wf_iff s) Hwf) as (_ & _ & Hc & _).
  unfold remove_competition. destruct (bind _ _); [|exact Hwf].
  apply wf_with_competitions; [assumption|]. now apply delete_distinct.
Qed.

Lemma edit_competition_wf (data : json) (s : store) :
  wf s = true -> wf (fst (edit_competition data s)) = true.
Proof.
  intros Hwf. pose proof (proj1 (wf_iff s) Hwf) as (_ & _ & Hc & _).
  unfold edit_competition. destruct (bind _ _) as [cs|e] eqn:E; [|exact Hwf].
  invert_binds E. apply wf_with_competitions; [assumption|].
  eapply update_distinct; eauto using competition_key_sym.
Qed.

Lemma add_competitor_to_competition_wf (data : json) (s : store) :
  wf s = true -> wf (fst (add_competitor_to_competition data s)) = true.
Proof.
  intros Hwf. pose proof (proj1 (wf_iff s) Hwf) as (_ & _ & _ & _ & Hl).
  unfold add_competitor_to_competition.
  destruct (bind _ _) as [[cn ci]|]; [|exact Hwf].
  destruct (negb (truthy cn) || negb (truthy ci)); [exact Hwf|].
  destruct (bind _ _) as [ls|e] eqn:E.
  - invert_binds E. apply wf_with_links; [assumption|].
    eapply insert_distinct; eauto using link_key_sym.
  - destruct e; exact Hwf.
Qed.

Lemma add_competitor_wf (data : json) (s : store) :
  wf s = true -> wf (fst (add_competitor data s)) = true.
Proof.
  intros Hwf. pose proof (proj1 (wf_iff s) Hwf) as (_ & _ & _ & Hc & _).
  unfold add_competitor. destruct (bind _ _) as [cs|e] eqn:E.
  - invert_binds E. apply wf_with_competitors; [assumption|].
    eapply insert_distinct; eauto using competitor_key_sym.
  - destruct e; exact Hwf.
Qed.

Lemma remove_competitor_wf (req : json) (s : store) :
  wf s = true -> wf (fst (remove_competitor req s)) = true.
Proof.
  intros Hwf. pose proof (proj1 (wf_iff s) Hwf) as (_ & _ & _ & Hc & _).
  unfold remove_competitor. destruct (bind _ _); [|exact Hwf].
  apply wf_with_competitors; [assumption|]. now apply delete_distinct.
Qed.

Lemma rename_competitor_wf (o i n nat st : value) (s s' : store) :
  rename_competitor o i n nat st s = Ok s' -> wf s = true -> wf s' = true.
Proof.
  intros H Hwf. pose proof (proj1 (wf_iff s) Hwf) as (_ & _ & _ & Hc & Hl).
  unfold rename_competitor in H. invert_binds H. inversion H. subst s'.
  apply wf_with_links; [apply wf_with_competitors; [assumption|]|].
  - eapply update_distinct; eauto using competitor_key_sym.
  - eapply update_distinct; eauto using link_key_sym.
Qed.

Lemma edit_competitor_wf (data : json) (s : store) :
  wf s = true -> wf (fst (edit_competitor data s)) = true.
Proof.
  intros Hwf. unfold edit_competitor.
  destruct (bind _ _) as [s'|e] eqn:E; [|exact Hwf].
  do 10 invert_bind E.
  eapply rename_competitor_wf; eassumption.
Qed.

Lemma handle_wf (r : request) (s : store) :
  wf s = true -> wf (fst (handle r s)) = true.
Proof.
  intros Hwf. destruct r; simpl; try exact Hwf;
    auto using signup_wf, add_user_wf, remove_user_wf, add_competition_wf,
      remove_competition_wf, edit_competition_wf,
      add_competitor_to_competition_wf, add_competitor_wf,
      remove_competitor_wf, edit_competitor_wf.
  unfold login. destruct (py_get _ _ _); [|exact Hwf].
  destruct (bind_param _); [|exact Hwf].
  destruct (find _ _); exact Hwf.
Qed.

Lemma load_user_wf (entry : string * json) (s s' : store) :
  load_user entry s = Ok s' -> wf s = true -> wf s' = true.
Proof.
  intros H Hwf. pose proof (proj1 (wf_iff s) Hwf) as (Hf & Hu & _).
  unfold load_user in H. destruct entry as [password details].
  invert_binds H. inversion H. apply wf_with_users; [assumption| |].
  - now apply insert_or_ignore_filled.
  - apply insert_or_ignore_distinct; auto using user_key_sym.
Qed.

Lemma load_link_wf (name : value) (comp_id : json) (s s' : store) :
  load_link name comp_id s = Ok s' -> wf s = true -> wf s' = true.
Proof.
  intros H Hwf. pose proof (proj1 (wf_iff s) Hwf) as (_ & _ & _ & _ & Hl).
  unfold load_link in H. invert_binds H. inversion H.
  apply wf_with_links; [assumption|].
  apply insert_or_ignore_distinct; auto using link_key_sym.
Qed.

Lemma load_competition_wf (entry : string * json) (s s' : store) :
  load_competition entry s = Ok s' -> wf s = true -> wf s' = true.
Proof.
  intros H Hwf. pose proof (proj1 (wf_iff s) Hwf) as (_ & _ & Hc & _).
  unfold load_competition in H.
  do 10 invert_bind H.
  match type of H with
  | context [with_competitions ?cs s] =>
      assert (Hwf1 : wf (with_competitions cs s) = true)
  end.
  { apply wf_with_competitions; [assumption|].
    apply insert_or_ignore_distinct; auto using competition_key_sym. }
  destruct (py_contains "competitor_ids" (snd entry)).
  - invert_binds H.
    eapply (for_each_invariant (fun s => wf s = true)); try eassumption.
    intros x s1 s2. apply load_link_wf.
  - inversion H. now subst.
Qed.

Lemma load_competitor_wf (entry : string * json) (s s' : store) :
  load_competitor entry s = Ok s' -> wf s = true -> wf s' = true.
Proof.
  intros H Hwf. pose proof (proj1 (wf_iff s) Hwf) as (_ & _ & _ & Hc & _).
  unfold load_competitor in H. invert_binds H. inversion H.
  apply wf_with_competitors; [assumption|].
  apply insert_or_ignore_distinct; auto using competitor_key_sym.
Qed.

Lemma load_initial_data_wf (fs : files) (s : store) :
  wf s = true -> wf (fst (load_initial_data fs s)) = true.
Proof.
  intros Hwf. unfold load_initial_data.
  destruct (_ || _); [exact Hwf|].
  destruct (load_documents fs s) as [s'|e] eqn:E; [|exact Hwf].
  unfold load_documents in E.
  do 8 invert_bind E.
  simpl.
  eapply (for_each_invariant (fun s => wf s = true)) in E; try eassumption.
  - apply load_competitor_wf.
  - eapply (for_each_invariant (fun s => wf s = true)); try eassumption.
    + apply load_competition_wf.
    + eapply (for_each_invariant (fun s => wf s = true)); try eassumption.
      apply load_user_wf.
Qed.

Lemma executemany_distinct {row : Type} (filled : row -> bool)
      (same_key : row -> row -> bool) :
  (forall a b, same_key a b = same_key b a) ->
  forall rows t,
    distinct same_key t = true ->
    distinct same_key (executemany (insert_or_ignore filled same_key) rows t)
    = true.
Proof.
  intros Hsym. unfold executemany.
  induction rows as [|r rows IH]; simpl; intros t Ht; [assumption|].
  apply IH. now apply insert_or_ignore_distinct.
Qed.

Lemma load_default_data_wf (s : store) :
  wf s = true -> wf (load_default_data s) = true.
Proof.
  intros Hwf. pose proof (proj1 (wf_iff s) Hwf) as (Hf & Hu & Hc & Hk & Hl).
  unfold load_default_data.
  apply wf_with_links; [apply wf_with_competitors;
                        [apply wf_with_competitions;
                         [apply wf_with_users|]|]|]; try assumption.
  - now apply insert_or_ignore_filled.
  - apply insert_or_ignore_distinct; auto using user_key_sym.
  - apply executemany_distinct; auto using competition_key_sym.
  - apply executemany_distinct; auto using competitor_key_sym.
  - apply executemany_distinct; auto using link_key_sym.
Qed.

Lemma init_db_wf (fs : files) (old : store) : wf (init_db fs old) = true.
Proof.
  unfold init_db.
  pose proof (load_initial_data_wf fs empty_store eq_refl) as H.
  destruct (load_initial_data fs empty_store) as [s loaded]. simpl in H.
  destruct loaded; [assumption|]. now apply load_default_data_wf.
Qed.

(** X1. The stores the application can be in (the one [init_db] leaves,
    whatever the seed files hold, and every store a sequence of requests
    leads to) keep the constraints of the schema: no user row has a
    [NULL] role, and in each table no two rows have the same non-[NULL]
    primary key. *)
Lemma reachable_wf (s : store) : reachable s -> wf s = true.
Proof.
  induction 1 as [fs old | r s _ IH].
  - apply init_db_wf.
  - now apply handle_wf.
Qed.

(** ** Editing a competitor *)

Lemma rename_competitor_ok (o i n nat st : value) (s s' : store) :
  rename_competitor o i n nat st s = Ok s' ->
  s' = with_links (renamed_links o i (competition_competitors s))
         (with_competitors (renamed_competitors o i n nat st (competitors s)) s).
Proof.
  unfold rename_competitor. intros H.
  apply bind_ok in H. destruct H as (cs & Hcs & H).
  apply bind_ok in H. destruct H as (ls & Hls & H).
  apply update_ok in Hcs, Hls. inversion H. now subst.
Qed.

Lemma rename_competitor_accepted (o i : string) (n nat st : value) (s : store) :
  wf s = true ->
  i = o \/ id_unused i s = true ->
  exists s', rename_competitor (Some o) (Some i) n nat st s = Ok s'.
Proof.
  intros Hwf Hi. apply wf_iff in Hwf. destruct Hwf as (_ & _ & _ & Hc & Hl).
  unfold rename_competitor, update_competitors, update_links, update.
  destruct Hi as [-> | Hi].
  - rewrite update_from_same_keys; auto using competitor_key_sym.
    + simpl bind. rewrite update_from_same_keys; auto using link_key_sym.
      * simpl. eauto.
      * intros cc x Hcc. apply sql_eq_text in Hcc. unfold link_key.
        simpl. now rewrite Hcc.
    + intros c x Hc'. apply sql_eq_text in Hc'. unfold competitor_key.
      simpl. now rewrite Hc'.
  - unfold id_unused in Hi. rewrite andb_true_iff, !negb_true_iff in Hi.
    destruct Hi as [Hic Hil]. rewrite existsb_false in Hic. rewrite existsb_false in Hil.
    rewrite update_from_fresh_keys; auto using competitor_key_sym.
    + simpl bind. rewrite update_from_fresh_keys; auto using link_key_sym.
      * simpl. eauto.
      * intros cc cc' Hcc Hcc'. apply sql_eq_text in Hcc, Hcc'.
        unfold link_key. simpl. rewrite Hcc, Hcc'. simpl.
        now rewrite !String.eqb_refl.
      * intros cc x _ _ Hx. unfold link_key.
        cbn [Link.competition_name Link.competitor_id].
        rewrite (sql_eq_sym (Some i)), (Hil x Hx). apply andb_false_r.
      * intros cc x _ _ [].
    + intros c c' Hc1 Hc2. apply sql_eq_text in Hc1, Hc2.
      unfold competitor_key. simpl. rewrite Hc1, Hc2. simpl.
      now rewrite !String.eqb_refl.
    + intros c x _ _ Hx. unfold competitor_key.
      cbn [Competitor.id]. rewrite sql_eq_sym. now apply Hic.
    + intros c x _ _ [].
Qed.

Lemma edit_competitor_statements (fields : list (string * json))
      (o i n nat st : value) (s : store) :
  has fields "original_id" o -> has fields "new_id" i ->
  has fields "new_name" n -> has fields "new_nationality" nat ->
  has fields "new_status" st ->
  edit_competitor (JObj fields) s
  = match rename_competitor o i n nat st s with
    | Ok s' => (s', jsonify true "Competitor updated successfully.")
    | Raise e => (s, jsonify false (str e))
    end.
Proof.
  intros Ho Hi Hn Hnat Hst. unfold edit_competitor.
  rewrite (py_item_has _ _ _ Hn), (py_item_has _ _ _ Hi),
    (py_item_has _ _ _ Hnat), (py_item_has _ _ _ Hst), (py_item_has _ _ _ Ho).
  simpl bind. rewrite !bind_param_value. reflexivity.
Qed.

(** C1, as the claim states it, fails: on the default dataset COMP-001 is
    a competitor row, and editing its id to COMP-002, the id of another
    row, is answered [success:false] and changes nothing. *)
Lemma edit_to_taken_id_refused :
  existsb (fun c => sql_eq (Competitor.id c) (Some "COMP-001"))
          (competitors default_store) = true
  /\ edit_competitor comp_001_to_002 default_store
     = (default_store, jsonify false "UNIQUE constraint failed: competitors.id").
Proof.
  split; reflexivity.
Qed.

(** C1, amended. Take a body with the five fields of the edit, the two ids
    being strings, and a store in which a competitor row has the original
    id.  If the key constraints hold and the new id is the original id or
    is the id of no competitor row and of no association row, the edit is
    accepted.  An accepted edit replaces the row of the original id by the
    row of the body (id, name, nationality, status) and puts the new id in
    every association row that had the original id; the listing of every
    competition that had the original id then holds the new name and
    nationality, and when the two ids differ no row of any listing has the
    original id.  An edit that is not accepted is answered with HTTP 200
    and [success:false], and leaves the store as it was. *)
Theorem edit_competitor_propagates :
  forall (s : store) (fields : list (string * json)) (o i : string)
         (n nat st : value),
    has fields "original_id" (Some o) ->
    has fields "new_id" (Some i) ->
    has fields "new_name" n ->
    has fields "new_nationality" nat ->
    has fields "new_status" st ->
    (exists c, In c (competitors s) /\ Competitor.id c = Some o) ->
    let accepted := jsonify true "Competitor updated successfully." in
    let s' := fst (edit_competitor (JObj fields) s) in
    let answer := snd (edit_competitor (JObj fields) s) in
    (wf s = true -> i = o \/ id_unused i s = true -> answer = accepted)
    /\ (answer = accepted ->
        competitors s'
        = renamed_competitors (Some o) (Some i) n nat st (competitors s)
        /\ competition_competitors s'
           = renamed_links (Some o) (Some i) (competition_competitors s)
        /\ In (Competitor.mk (Some i) n nat st) (competitors s')
        /\ (forall cn, In (Link.mk cn (Some o)) (competition_competitors s) ->
                       In (Link.mk cn (Some i)) (competition_competitors s'))
        /\ (forall name,
               In (Link.mk (Some name) (Some o)) (competition_competitors s) ->
               exists rows,
                 get_competition_competitors name s'
                 = mkResponse 200 (NameNationality rows)
                 /\ In (n, nat) rows)
        /\ (i <> o ->
            (forall c, In c (competitors s') -> Competitor.id c <> Some o)
            /\ (forall cc, In cc (competition_competitors s') ->
                           Link.competitor_id cc <> Some o)
            /\ (forall name c, In c (competition_members name s') ->
                               Competitor.id c <> Some o)))
    /\ (answer <> accepted ->
        s' = s /\ exists msg, answer = jsonify false msg).
Proof.
  intros s fields o i n nat st Ho Hi Hn Hnat Hst (c0 & Hc0 & Hid0)
         accepted s' answer.
  subst s' answer.
  rewrite (edit_competitor_statements fields _ _ _ _ _ s Ho Hi Hn Hnat Hst).
  split; [|split].
  - intros Hwf Hfresh.
    destruct (rename_competitor_accepted o i n nat st s Hwf Hfresh) as [s' ->].
    reflexivity.
  - destruct (rename_competitor _ _ _ _ _ s) as [s'|e] eqn:E;
      [|discriminate]. intros _. simpl fst.
    apply rename_competitor_ok in E. subst s'. simpl.
    assert (Hrow : In (Competitor.mk (Some i) n nat st)
                      (renamed_competitors (Some o) (Some i) n nat st
                                           (competitors s))).
    { apply in_map_iff. exists c0. split; [|assumption].
      rewrite Hid0. simpl. now rewrite String.eqb_refl. }
    assert (Hlinks : forall cn,
               In (Link.mk cn (Some o)) (competition_competitors s) ->
               In (Link.mk cn (Some i))
                  (renamed_links (Some o) (Some i) (competition_competitors s))).
    { intros cn Hcn. apply in_map_iff. eexists. split; [|exact Hcn].
      simpl. now rewrite String.eqb_refl. }
    assert (Hgone : i <> o ->
               forall c, In c (renamed_competitors (Some o) (Some i) n nat st
                                                   (competitors s)) ->
                         Competitor.id c <> Some o).
    { intros Hio c Hc. apply in_map_iff in Hc. destruct Hc as (c' & <- & _).
      destruct (sql_eq (Competitor.id c') (Some o)) eqn:E.
      - simpl. congruence.
      - intros H. apply sql_eq_text in H. congruence. }
    repeat split; auto.
    + intros name Hname. eexists. split; [reflexivity|].
      apply in_map_iff. exists (Competitor.mk (Some i) n nat st).
      split; [reflexivity|]. apply competition_members_spec. simpl.
      split; [assumption|]. exists i. auto.
    + intros cc Hcc. apply in_map_iff in Hcc. destruct Hcc as (cc' & <- & _).
      destruct (sql_eq (Link.competitor_id cc') (Some o)) eqn:E.
      * simpl. congruence.
      * intros H'. apply sql_eq_text in H'. congruence.
    + intros name c Hc. apply competition_members_spec in Hc.
      destruct Hc as [Hc _]. now apply Hgone.
  - destruct (rename_competitor _ _ _ _ _ s) as [s'|e].
    + intros H. now elim H.
    + intros _. split; [reflexivity|]. now exists (str e).
Qed.

Lemma edit_competitor_propagates_witness :
  snd (edit_competitor (JObj comp_001_to_099) default_store)
  = jsonify true "Competitor updated successfully."
  /\ (exists rows,
         get_competition_competitors "Winter Grand Prix"
           (fst (edit_competitor (JObj comp_001_to_099) default_store))
         = mkResponse 200 (NameNationality rows)
         /\ In (Some "Alexander Smith", Some "Canadian") rows)
  /\ forall c,
       In c (competition_members "Winter Grand Prix"
               (fst (edit_competitor (JObj comp_001_to_099) default_store))) ->
       Competitor.id c <> Some "COMP-001".
Proof.
  assert (Hpresent : exists c, In c (competitors default_store)
                               /\ Competitor.id c = Some "COMP-001").
  { eexists. split; [left; reflexivity | reflexivity]. }
  pose proof (edit_competitor_propagates default_store comp_001_to_099
                "COMP-001" "COMP-099" (Some "Alexander Smith")
                (Some "Canadian") (Some "Active")
                eq_refl eq_refl eq_refl eq_refl eq_refl Hpresent)
    as (Hacc & Heffect & _).
  assert (Haccepted : snd (edit_competitor (JObj comp_001_to_099) default_store)
                      = jsonify true "Competitor updated successfully.")
    by (apply Hacc; [reflexivity | right; reflexivity]).
  destruct (Heffect Haccepted) as (_ & _ & _ & _ & Hlisting & Hgone).
  split; [exact Haccepted|]. split.
  - apply Hlisting. left. reflexivity.
  - assert (Hdiff : "COMP-099" <> "COMP-001") by discriminate.
    destruct (Hgone Hdiff) as (_ & _ & Hnone). apply Hnone.
Defined.

(** * Further properties of the handlers and of the seed loader *)

Lemma reachable_wf_witness :
  reachable summer_open_joined /\ wf summer_open_joined = true.
Proof.
  assert (H : reachable summer_open_joined)
    by apply reachable_step, reachable_init.
  split; [exact H|].
  exact (reachable_wf summer_open_joined H).
Defined.

(** ** Looking a row up by its key *)

Lemma find_unique {row : Type} (same_key : row -> row -> bool)
      (p : row -> bool) (t : list row) (x : row) :
  (forall a b, p a = true -> p b = true -> same_key a b = true) ->
  distinct same_key t = true -> In x t -> p x = true ->
  find p t = Some x.
Proof.
  intros Hp. induction t as [|a t IH]; simpl; intros Hd Hx Hpx; [destruct Hx|].
  apply andb_true_iff in Hd. destruct Hd as [Ha Hd].
  apply negb_true_iff in Ha. rewrite existsb_false in Ha.
  destruct Hx as [->|Hx].
  - now rewrite Hpx.
  - destruct (p a) eqn:Epa; [|auto].
    specialize (Ha x Hx). rewrite Hp in Ha by assumption. discriminate.
Qed.

Lemma find_absent {row : Type} (p : row -> bool) (t : list row) :
  (forall x, In x t -> p x = false) -> find p t = None.
Proof.
  intros H. destruct (find p t) as [x|] eqn:E; [|reflexivity].
  apply find_some in E. destruct E as [Hx Hp].
  rewrite H in Hp by assumption. discriminate.
Qed.

Lemma find_after {row : Type} (p : row -> bool) (t l : list row) :
  (forall x, In x t -> p x = false) -> find p (t ++ l) = find p l.
Proof.
  induction t as [|a t IH]; simpl; intros H; [reflexivity|].
  rewrite (H a) by now left. apply IH. intros x Hx. apply H. now right.
Qed.

Lemma sql_eq_text_false (a : value) (k : string) :
  a <> Some k -> sql_eq a (Some k) = false.
Proof.
  intros H. destruct (sql_eq a (Some k)) eqn:E; [|reflexivity].
  apply sql_eq_text in E. contradiction.
Qed.

Lemma sql_eq_both_text (a b : value) (k : string) :
  sql_eq a (Some k) = true -> sql_eq b (Some k) = true -> sql_eq a b = true.
Proof.
  intros Ha Hb. apply sql_eq_text in Ha, Hb. subst. simpl.
  apply String.eqb_refl.
Qed.

Lemma delete_none_left {row : Type} (p : row -> bool) (t : list row) (x : row) :
  In x (delete p t) -> p x = false.
Proof.
  unfold delete. rewrite filter_In. intros [_ H]. now apply negb_true_iff.
Qed.

(** ** Logging in *)

Lemma signup_statement (fields : list (string * json)) (pw : value) (s : store) :
  py_get (JObj fields) "password" JNull = Ok (json_of_value pw) ->
  signup (JObj fields) s
  = match insert_user (User.mk pw (Some "general")) (users s) with
    | Ok us =>
        (with_users us s,
         jsonify true "User created successfully. You can now log in.")
    | Raise (IntegrityError _) => (s, jsonify false "User already exists.")
    | Raise e => (s, server_error e)
    end.
Proof.
  intros Hk. unfold signup. rewrite Hk. unfold bind.
  now rewrite bind_param_value.
Qed.

Lemma add_user_statement (fields : list (string * json)) (pw r : value)
      (s : store) :
  py_get (JObj fields) "password" JNull = Ok (json_of_value pw) ->
  py_get (JObj fields) "role" (JStr "general") = Ok (json_of_value r) ->
  add_user (JObj fields) s
  = match insert_user (User.mk pw r) (users s) with
    | Ok us => (with_users us s, jsonify true "User added successfully.")
    | Raise (IntegrityError _) => (s, jsonify false "User already exists.")
    | Raise e => (s, server_error e)
    end.
Proof.
  intros Hk Hr. unfold add_user. rewrite Hk, Hr. unfold bind.
  now rewrite !bind_param_value.
Qed.

Lemma login_statement (fields : list (string * json)) (pw : value) (s : store) :
  py_get (JObj fields) "password" JNull = Ok (json_of_value pw) ->
  login (JObj fields) s
  = match find (fun u => sql_eq (User.password u) pw) (users s) with
    | Some user =>
        (s, mkResponse 200 (LoggedIn "Login successful." (User.role user)))
    | None => (s, jsonify false "Invalid password.")
    end.
Proof.
  intros Hk. unfold login. rewrite Hk. now rewrite bind_param_value.
Qed.

Lemma py_get_text (fields : list (string * json)) (f k : string) (d : json) :
  assoc f fields = Some (JStr k) ->
  py_get (JObj fields) f d = Ok (json_of_value (Some k)).
Proof. simpl. now intros ->. Qed.

(** X2. [POST /api/login] never changes the store.  With a string
    password [k]: in a store that keeps the constraints, if the row
    [(k, r)] is in [users] the answer is HTTP 200 with the message
    "Login successful." and the role [r] of that row; if no row has the
    password [k] the answer is [success:false], "Invalid password.". *)
Theorem login_answers_with_role :
  forall (s : store) (fields : list (string * json)) (k : string),
    assoc "password" fields = Some (JStr k) ->
    fst (login (JObj fields) s) = s
    /\ (forall r, wf s = true -> In (User.mk (Some k) r) (users s) ->
                  snd (login (JObj fields) s)
                  = mkResponse 200 (LoggedIn "Login successful." r))
    /\ ((forall u, In u (users s) -> User.password u <> Some k) ->
        snd (login (JObj fields) s) = jsonify false "Invalid password.").
Proof.
  intros s fields k Hk.
  rewrite (login_statement fields (Some k) s (py_get_text _ _ _ _ Hk)).
  split; [|split].
  - destruct (find _ (users s)); reflexivity.
  - intros r Hwf Hin. apply wf_iff in Hwf. destruct Hwf as (_ & Hu & _).
    rewrite (find_unique user_key _ _ (User.mk (Some k) r)); auto.
    + intros a b Ha Hb. unfold user_key. eapply sql_eq_both_text; eassumption.
    + simpl. apply String.eqb_refl.
  - intros Habsent. rewrite find_absent; [reflexivity|].
    intros u Hu. apply sql_eq_text_false. auto.
Qed.

Lemma login_answers_with_role_witness :
  login (JObj (credentials "admin")) default_store
  = (default_store, mkResponse 200 (LoggedIn "Login successful." (Some "admin"))).
Proof.
  destruct (login_answers_with_role default_store (credentials "admin") "admin"
              eq_refl) as (Hstore & Hfound & _).
  specialize (Hfound (Some "admin") eq_refl (or_introl eq_refl)).
  destruct (login (JObj (credentials "admin")) default_store) as [s' answer].
  simpl in Hstore, Hfound. now subst.
Defined.

(** X3. A user created through [POST /api/signup] or [POST /api/users/add]
    can log in at once: when no row has the password [k], the insert is
    answered [success:true] and a login with [k] on the resulting store
    answers with the role stored, "general" for a signup and for an add
    without [role], the given role for an add with one. *)
Theorem created_user_logs_in :
  forall (s : store) (fields : list (string * json)) (k : string),
    assoc "password" fields = Some (JStr k) ->
    (forall u, In u (users s) -> User.password u <> Some k) ->
    (snd (signup (JObj fields) s)
     = jsonify true "User created successfully. You can now log in."
     /\ snd (login (JObj (credentials k)) (fst (signup (JObj fields) s)))
        = mkResponse 200 (LoggedIn "Login successful." (Some "general")))
    /\ (forall r,
           py_get (JObj fields) "role" (JStr "general") = Ok (JStr r) ->
           snd (add_user (JObj fields) s) = jsonify true "User added successfully."
           /\ snd (login (JObj (credentials k)) (fst (add_user (JObj fields) s)))
              = mkResponse 200 (LoggedIn "Login successful." (Some r))).
Proof.
  intros s fields k Hk Hnew.
  assert (Hfree : forall r, existsb (user_key (User.mk (Some k) r)) (users s)
                            = false).
  { intros r. apply existsb_false. intros u Hu. unfold user_key.
    cbn [User.password]. rewrite sql_eq_sym. apply sql_eq_text_false. auto. }
  assert (Hfind : forall r,
             find (fun u => sql_eq (User.password u) (Some k))
                  (users s ++ [User.mk (Some k) (Some r)])
             = Some (User.mk (Some k) (Some r))).
  { intros r. rewrite find_after.
    - simpl. now rewrite String.eqb_refl.
    - intros u Hu. apply sql_eq_text_false. auto. }
  split.
  - rewrite (signup_statement fields (Some k) s (py_get_text _ _ _ _ Hk)).
    unfold insert_user. rewrite insert_new by auto.
    split; [reflexivity|].
    rewrite (login_statement (credentials k) (Some k)) by reflexivity.
    simpl fst. cbn [users with_users]. now rewrite Hfind.
  - intros r Hr.
    rewrite (add_user_statement fields (Some k) (Some r) s
               (py_get_text _ _ _ _ Hk) Hr).
    unfold insert_user. rewrite insert_new by auto.
    split; [reflexivity|].
    rewrite (login_statement (credentials k) (Some k)) by reflexivity.
    simpl fst. cbn [users with_users]. now rewrite Hfind.
Qed.

Lemma created_user_logs_in_witness :
  snd (login (JObj (credentials "s3cret"))
             (fst (signup (JObj (credentials "s3cret")) default_store)))
  = mkResponse 200 (LoggedIn "Login successful." (Some "general")).
Proof.
  refine (proj2 (proj1 (created_user_logs_in default_store
                          (credentials "s3cret") "s3cret" eq_refl _))).
  intros u Hu. simpl in Hu. destruct Hu as [<-|[]]. discriminate.
Defined.

(** X4. After [POST /api/users/remove] with the password [k], a login with
    [k] is answered "Invalid password.", whatever the store was. *)
Theorem removed_user_cannot_log_in :
  forall (s : store) (fields : list (string * json)) (k : string),
    assoc "password" fields = Some (JStr k) ->
    snd (login (JObj (credentials k)) (fst (remove_user (JObj fields) s)))
    = jsonify false "Invalid password.".
Proof.
  intros s fields k Hk.
  rewrite (login_statement (credentials k) (Some k)) by reflexivity.
  unfold remove_user. rewrite (py_get_text _ _ _ _ Hk). unfold bind.
  rewrite bind_param_value. simpl fst. cbn [users with_users].
  rewrite find_absent; [reflexivity|].
  intros u Hu. now apply delete_none_left in Hu.
Qed.

Lemma removed_user_cannot_log_in_witness :
  snd (login (JObj (credentials "admin"))
             (fst (remove_user (JObj (credentials "admin")) default_store)))
  = jsonify false "Invalid password.".
Proof.
  exact (removed_user_cannot_log_in default_store (credentials "admin") "admin"
           eq_refl).
Defined.

(** X5. A body without [password], or with a [null] one, binds [NULL]:
    a signup then always stores a new row with a [NULL] password and
    answers [success:true], and a login is always answered
    "Invalid password.", also when such rows exist. *)
Theorem null_password_signs_up_never_logs_in :
  forall (s : store) (fields : list (string * json)),
    py_get (JObj fields) "password" JNull = Ok JNull ->
    signup (JObj fields) s
    = (with_users (users s ++ [User.mk None (Some "general")]) s,
       jsonify true "User created successfully. You can now log in.")
    /\ forall s', login (JObj fields) s' = (s', jsonify false "Invalid password.").
Proof.
  intros s fields Hk. split.
  - rewrite (signup_statement fields None s Hk). unfold insert_user.
    rewrite insert_new; [reflexivity | reflexivity |].
    apply existsb_false. intros u _. reflexivity.
  - intros s'. rewrite (login_statement fields None s' Hk).
    rewrite find_absent; [reflexivity|]. intros u _. apply sql_eq_null_r.
Qed.

Lemma null_password_signs_up_never_logs_in_witness :
  login (JObj []) (fst (signup (JObj []) default_store))
  = (fst (signup (JObj []) default_store), jsonify false "Invalid password.").
Proof.
  exact (proj2 (null_password_signs_up_never_logs_in default_store [] eq_refl)
               (fst (signup (JObj []) default_store))).
Defined.

(** ** Bodies that lack a field *)

Ltac present Hbefore fields f :=
  let E := fresh "E" in
  destruct (assoc f fields) eqn:E;
  [| exfalso; apply (Hbefore f); [simpl; tauto | exact E]].

(** X6. [POST /api/competitions/add] and [POST /api/competitors/add]
    subscript their four fields in order and catch only [IntegrityError]:
    when the body has every field before [k] in that order and lacks [k],
    the [KeyError] of [k], the first missing field, leaves the handler,
    which is a 500, and the store is not changed. *)
Theorem add_without_field_is_server_error :
  forall (s : store) (fields : list (string * json))
         (before after : list string) (k : string),
    (forall f, In f before -> assoc f fields <> None) ->
    assoc k fields = None ->
    (add_competition_subscripts = before ++ k :: after ->
     add_competition (JObj fields) s = (s, server_error (KeyError k)))
    /\ (add_competitor_subscripts = before ++ k :: after ->
        add_competitor (JObj fields) s = (s, server_error (KeyError k))).
Proof.
  intros s fields before after k Hbefore Hk. split; intros Hsplit.
  - unfold add_competition_subscripts in Hsplit.
    destruct before as [|b1 [|b2 [|b3 [|b4 rest]]]];
      simpl in Hsplit; inversion Hsplit; subst;
      unfold add_competition; simpl py_item.
    + now rewrite Hk.
    + present Hbefore fields "name". now rewrite Hk.
    + present Hbefore fields "name". present Hbefore fields "date".
      now rewrite Hk.
    + present Hbefore fields "name". present Hbefore fields "date".
      present Hbefore fields "location". now rewrite Hk.
    + destruct rest; discriminate.
  - unfold add_competitor_subscripts in Hsplit.
    destruct before as [|b1 [|b2 [|b3 [|b4 rest]]]];
      simpl in Hsplit; inversion Hsplit; subst;
      unfold add_competitor; simpl py_item.
    + now rewrite Hk.
    + present Hbefore fields "id". now rewrite Hk.
    + present Hbefore fields "id". present Hbefore fields "name".
      now rewrite Hk.
    + present Hbefore fields "id". present Hbefore fields "name".
      present Hbefore fields "nationality". now rewrite Hk.
    + destruct rest; discriminate.
Qed.

Lemma add_without_field_is_server_error_witness :
  add_competition (JObj [("name", JStr "Autumn Classic")]) default_store
  = (default_store, server_error (KeyError "date")).
Proof.
  refine (proj1 (add_without_field_is_server_error default_store
                   [("name", JStr "Autumn Classic")]
                   ["name"] ["location"; "description"] "date" _ eq_refl)
                eq_refl).
  intros f [<-|[]]. discriminate.
Defined.

(** X7. The two edit endpoints subscript their fields in order and catch
    every exception: when the body has every field before [k] in that
    order and lacks [k], the answer is HTTP 200 with [success:false] and
    the quoted name of [k], the first missing field, as the message, and
    the store is not changed. *)
Theorem edit_without_field_names_it :
  forall (s : store) (fields : list (string * json))
         (before after : list string) (k : string),
    (forall f, In f before -> assoc f fields <> None) ->
    assoc k fields = None ->
    (edit_competitor_subscripts = before ++ k :: after ->
     edit_competitor (JObj fields) s
     = (s, jsonify false ("'" ++ k ++ "'")%string))
    /\ (edit_competition_subscripts = before ++ k :: after ->
        edit_competition (JObj fields) s
        = (s, jsonify false ("'" ++ k ++ "'")%string)).
Proof.
  intros s fields before after k Hbefore Hk. split; intros Hsplit.
  - unfold edit_competitor_subscripts in Hsplit.
    destruct before as [|b1 [|b2 [|b3 [|b4 [|b5 rest]]]]];
      simpl in Hsplit; inversion Hsplit; subst;
      unfold edit_competitor; simpl py_item.
    + now rewrite Hk.
    + present Hbefore fields "new_name". now rewrite Hk.
    + present Hbefore fields "new_name". present Hbefore fields "new_id".
      now rewrite Hk.
    + present Hbefore fields "new_name". present Hbefore fields "new_id".
      present Hbefore fields "new_nationality". now rewrite Hk.
    + present Hbefore fields "new_name". present Hbefore fields "new_id".
      present Hbefore fields "new_nationality".
      present Hbefore fields "new_status". now rewrite Hk.
    + destruct rest; discriminate.
  - unfold edit_competition_subscripts in Hsplit.
    destruct before as [|b1 [|b2 [|b3 [|b4 [|b5 [|b6 rest]]]]]];
      simpl in Hsplit; inversion Hsplit; subst;
      unfold edit_competition; simpl py_item.
    + now rewrite Hk.
    + present Hbefore fields "new_name". now rewrite Hk.
    + present Hbefore fields "new_name". present Hbefore fields "new_date".
      now rewrite Hk.
    + present Hbefore fields "new_name". present Hbefore fields "new_date".
      present Hbefore fields "new_location". now rewrite Hk.
    + present Hbefore fields "new_name". present Hbefore fields "new_date".
      present Hbefore fields "new_location".
      present Hbefore fields "new_description". now rewrite Hk.
    + present Hbefore fields "new_name". present Hbefore fields "new_date".
      present Hbefore fields "new_location".
      present Hbefore fields "new_description".
      present Hbefore fields "new_status". now rewrite Hk.
    + destruct rest; discriminate.
Qed.

Lemma edit_without_field_names_it_witness :
  edit_competitor (JObj [("new_name", JStr "Alex Smith")]) default_store
  = (default_store, jsonify false "'new_id'").
Proof.
  refine (proj1 (edit_without_field_names_it default_store
                   [("new_name", JStr "Alex Smith")]
                   ["new_name"]
                   ["new_nationality"; "new_status"; "original_id"]
                   "new_id" _ eq_refl)
                eq_refl).
  intros f [<-|[]]. discriminate.
Defined.

(** ** Refused requests *)

(** X8. Whatever the request and its body, a handler changes the store
    only when it answers [success:true]: every other answer (a
    [success:false], a 404, a 500, a listing, a login) comes with the store
    as it was. *)
Theorem store_changes_only_on_success :
  forall (r : request) (s : store),
    succeeded (snd (handle r s)) = false -> fst (handle r s) = s.
Proof.
  intros r s. destruct r; simpl handle; try reflexivity.
  - unfold login. destruct (py_get _ _ _); [|reflexivity].
    destruct (bind_param _); [|reflexivity]. destruct (find _ _); reflexivity.
  - unfold signup. destruct (py_get _ _ _); [|reflexivity].
    destruct (bind _ _) as [us|[]]; simpl; intros H;
      try reflexivity; discriminate.
  - unfold add_user. destruct (bind _ _) as [[password role]|]; [|reflexivity].
    destruct (bind _ _) as [us|[]]; simpl; intros H;
      try reflexivity; discriminate.
  - unfold remove_user. destruct (bind _ _); simpl; intros H;
      try reflexivity; discriminate.
  - unfold add_competition. destruct (bind _ _) as [cs|[]]; simpl; intros H;
      try reflexivity; discriminate.
  - unfold remove_competition. destruct (bind _ _); simpl; intros H;
      try reflexivity; discriminate.
  - unfold edit_competition. destruct (bind _ _); simpl; intros H;
      try reflexivity; discriminate.
  - unfold add_competitor_to_competition.
    destruct (bind _ _) as [[cn ci]|]; [|reflexivity].
    destruct (negb (truthy cn) || negb (truthy ci)); [reflexivity|].
    destruct (bind _ _) as [ls|[]]; simpl; intros H;
      try reflexivity; discriminate.
  - unfold add_competitor. destruct (bind _ _) as [cs|[]]; simpl; intros H;
      try reflexivity; discriminate.
  - unfold remove_competitor. destruct (bind _ _); simpl; intros H;
      try reflexivity; discriminate.
  - unfold edit_competitor. destruct (bind _ _); simpl; intros H;
      try reflexivity; discriminate.
Qed.

Lemma store_changes_only_on_success_witness :
  succeeded (snd (handle (PostSignup (JObj (credentials "admin"))) default_store))
  = false
  /\ fst (handle (PostSignup (JObj (credentials "admin"))) default_store)
     = default_store.
Proof.
  split; [reflexivity|].
  exact (store_changes_only_on_success
           (PostSignup (JObj (credentials "admin"))) default_store eq_refl).
Defined.

(** ** Removing twice *)

Lemma delete_twice {row : Type} (p : row -> bool) (t : list row) :
  delete p (delete p t) = delete p t.
Proof.
  apply delete_absent. apply existsb_false.
  intros x Hx. now apply delete_none_left in Hx.
Qed.

(** X9. The remove endpoints are idempotent on every body and store:
    sending the same removal a second time leaves the store the first one
    left. *)
Theorem remove_twice_is_remove_once :
  forall (e : remove_endpoint) (req : json) (s : store),
    fst (post_remove e req (fst (post_remove e req s)))
    = fst (post_remove e req s).
Proof.
  intros e req s.
  destruct e; cbn [post_remove];
    unfold remove_user, remove_competition, remove_competitor;
    destruct (bind _ _) as [k|]; try reflexivity;
    cbn [fst]; unfold with_users, with_competitions, with_competitors;
    cbn [users competitions competitors competition_competitors];
    now rewrite delete_twice.
Qed.

(** ** Editing a competition *)

Lemma update_from_no_match {row : Type} (filled : row -> bool)
      (same_key : row -> row -> bool) (m1 m2 : string)
      (p : row -> bool) (f : row -> row) :
  forall todo done,
    (forall r, In r todo -> p r = false) ->
    update_from filled same_key m1 m2 p f done todo = Ok (done ++ todo).
Proof.
  induction todo as [|r rest IH]; simpl; intros done H.
  - now rewrite app_nil_r.
  - rewrite (H r) by now left. rewrite IH by auto.
    now rewrite <- app_assoc.
Qed.

Lemma edit_competition_statement (fields : list (string * json))
      (o n d l ds st : value) (s : store) :
  has fields "original_name" o -> has fields "new_name" n ->
  has fields "new_date" d -> has fields "new_location" l ->
  has fields "new_description" ds -> has fields "new_status" st ->
  edit_competition (JObj fields) s
  = match update_competitions (fun c => sql_eq (Competition.name c) o)
                              (fun _ => Competition.mk n d l ds st)
                              (competitions s) with
    | Ok cs =>
        (with_competitions cs s, jsonify true "Competition updated successfully.")
    | Raise e => (s, jsonify false (str e))
    end.
Proof.
  intros Ho Hn Hd Hl Hds Hst. unfold edit_competition.
  rewrite (py_item_has _ _ _ Hn), (py_item_has _ _ _ Hd),
    (py_item_has _ _ _ Hl), (py_item_has _ _ _ Hds),
    (py_item_has _ _ _ Hst), (py_item_has _ _ _ Ho).
  unfold bind. now rewrite !bind_param_value.
Qed.

(** X10. [POST /api/competitions/edit] writes to [competitions] only, so a
    rename is not carried into the association table (the competitor edit
    does carry its rename).  With the six fields in the body, the names
    being strings: the association table and every competition's listing
    stay as they were; in a store that keeps the constraints the edit is
    accepted when the new name is the original one or the name of no
    competition row; an accepted edit replaces the row of the original
    name by the row of the body, after which, the names differing, no
    competitor's competitions hold a row of the original name, nor one of
    the new name unless an association row already carried it. *)
Theorem edit_competition_not_propagated :
  forall (s : store) (fields : list (string * json)) (o n : string)
         (d l ds st : value),
    has fields "original_name" (Some o) ->
    has fields "new_name" (Some n) ->
    has fields "new_date" d ->
    has fields "new_location" l ->
    has fields "new_description" ds ->
    has fields "new_status" st ->
    let accepted := jsonify true "Competition updated successfully." in
    let s' := fst (edit_competition (JObj fields) s) in
    let answer := snd (edit_competition (JObj fields) s) in
    competition_competitors s' = competition_competitors s
    /\ (forall name,
           get_competition_competitors name s'
           = get_competition_competitors name s)
    /\ (wf s = true ->
        n = o \/ (forall c, In c (competitions s) ->
                            Competition.name c <> Some n) ->
        answer = accepted)
    /\ (answer = accepted ->
        competitions s'
        = renamed_competitions (Some o) (Some n) d l ds st (competitions s)
        /\ (n <> o ->
            forall competitor_id c,
              In c (competitor_competitions competitor_id s') ->
              Competition.name c <> Some o)
        /\ ((forall cc, In cc (competition_competitors s) ->
                        Link.competition_name cc <> Some n) ->
            forall competitor_id c,
              In c (competitor_competitions competitor_id s') ->
              Competition.name c <> Some n)).
Proof.
  intros s fields o n d l ds st Ho Hn Hd Hl Hds Hst accepted s' answer.
  subst s' answer.
  rewrite (edit_competition_statement fields _ _ _ _ _ _ s Ho Hn Hd Hl Hds Hst).
  split; [|split; [|split]].
  - destruct (update_competitions _ _ _); reflexivity.
  - intros name. destruct (update_competitions _ _ _); reflexivity.
  - intros Hwf Hfresh. apply wf_iff in Hwf. destruct Hwf as (_ & _ & Hc & _).
    unfold update_competitions, update. destruct Hfresh as [-> | Hfresh].
    + rewrite update_from_same_keys; auto using competition_key_sym.
      intros c x Hc'. apply sql_eq_text in Hc'. unfold competition_key.
      simpl. now rewrite Hc'.
    + rewrite update_from_fresh_keys; auto using competition_key_sym.
      * intros c c' Hc1 Hc2. apply sql_eq_text in Hc1, Hc2.
        unfold competition_key. simpl. rewrite Hc1, Hc2. simpl.
        now rewrite !String.eqb_refl.
      * intros c x _ _ Hx. unfold competition_key. cbn [Competition.name].
        rewrite sql_eq_sym. apply sql_eq_text_false. auto.
      * intros c x _ _ [].
  - destruct (update_competitions _ _ _) as [cs|e] eqn:E; [|discriminate].
    intros _. apply update_ok in E. subst cs. simpl fst.
    split; [reflexivity|]. split.
    + intros Hno competitor_id c Hc.
      apply competitor_competitions_spec in Hc. destruct Hc as [Hc _].
      simpl in Hc. apply in_map_iff in Hc. destruct Hc as (c' & <- & _).
      destruct (sql_eq (Competition.name c') (Some o)) eqn:E.
      * simpl. congruence.
      * intros H. apply sql_eq_text in H. congruence.
    + intros Hnone competitor_id c Hc.
      apply competitor_competitions_spec in Hc.
      destruct Hc as (_ & k & Hname & Hlink). simpl in Hlink.
      intros H. rewrite H in Hname. inversion Hname. subst k.
      now elim (Hnone _ Hlink).
Qed.

Lemma edit_competition_not_propagated_witness :
  snd (edit_competition (JObj winter_to_frost) default_store)
  = jsonify true "Competition updated successfully."
  /\ competition_competitors
       (fst (edit_competition (JObj winter_to_frost) default_store))
     = default_links.
Proof.
  pose proof (edit_competition_not_propagated default_store winter_to_frost
                "Winter Grand Prix" "Frost Grand Prix"
                (Some "March 1, 2025") (Some "London, UK") None
                (Some "Completed") eq_refl eq_refl eq_refl eq_refl eq_refl
                eq_refl) as (Hlinks & _ & Hacc & _).
  split; [|exact Hlinks].
  apply Hacc; [reflexivity|]. right.
  intros c Hc. simpl in Hc. destruct Hc as [<-|[<-|[<-|[]]]]; discriminate.
Defined.

(** X11. An edit whose original key is in no table is reported as a
    success and changes nothing: [POST /api/competitors/edit] when no
    competitor row and no association row has the original id,
    [POST /api/competitions/edit] when no competition row has the original
    name. *)
Theorem edit_of_absent_key_succeeds_unchanged :
  forall (s : store) (fields : list (string * json)) (o : string),
    (forall i n nat st,
        has fields "original_id" (Some o) -> has fields "new_id" i ->
        has fields "new_name" n -> has fields "new_nationality" nat ->
        has fields "new_status" st ->
        (forall c, In c (competitors s) -> Competitor.id c <> Some o) ->
        (forall cc, In cc (competition_competitors s) ->
                    Link.competitor_id cc <> Some o) ->
        edit_competitor (JObj fields) s
        = (s, jsonify true "Competitor updated successfully."))
    /\ (forall n d l ds st,
           has fields "original_name" (Some o) -> has fields "new_name" n ->
           has fields "new_date" d -> has fields "new_location" l ->
           has fields "new_description" ds -> has fields "new_status" st ->
           (forall c, In c (competitions s) -> Competition.name c <> Some o) ->
           edit_competition (JObj fields) s
           = (s, jsonify true "Competition updated successfully.")).
Proof.
  intros s fields o. split.
  - intros i n nat st Ho Hi Hn Hnat Hst Hc Hl.
    rewrite (edit_competitor_statements fields _ _ _ _ _ s Ho Hi Hn Hnat Hst).
    unfold rename_competitor, update_competitors, update_links, update.
    rewrite update_from_no_match
      by (intros c Hin; apply sql_eq_text_false; auto).
    cbn [bind]. rewrite update_from_no_match
      by (intros cc Hin; apply sql_eq_text_false; auto).
    cbn [bind]. now destruct s.
  - intros n d l ds st Ho Hn Hd Hl Hds Hst Hc.
    rewrite (edit_competition_statement fields _ _ _ _ _ _ s Ho Hn Hd Hl Hds Hst).
    unfold update_competitions, update.
    rewrite update_from_no_match
      by (intros c Hin; apply sql_eq_text_false; auto).
    now destruct s.
Qed.

Lemma edit_of_absent_key_succeeds_unchanged_witness :
  edit_competitor (JObj comp_404_edit) default_store
  = (default_store, jsonify true "Competitor updated successfully.").
Proof.
  apply (proj1 (edit_of_absent_key_succeeds_unchanged default_store
                  comp_404_edit "COMP-404")
               (Some "COMP-405") (Some "Nobody") None None);
    try reflexivity.
  - intros c Hc. simpl in Hc. destruct Hc as [<-|[<-|[<-|[]]]]; discriminate.
  - intros cc Hcc. simpl in Hcc.
    destruct Hcc as [<-|[<-|[<-|[<-|[]]]]]; discriminate.
Defined.

(** ** Assignments, profiles and listings *)

Lemma find_present {row : Type} (p : row -> bool) (t : list row) (x : row) :
  In x t -> p x = true -> exists y, find p t = Some y.
Proof.
  intros Hx Hp. destruct (find p t) as [y|] eqn:E; [eauto|].
  apply find_none with (x := x) in E; [congruence | assumption].
Qed.

Lemma assign_statement (fields : list (string * json)) (a b : string) (s : store) :
  assoc "competition_name" fields = Some (JStr a) -> a <> "" ->
  assoc "competitor_id" fields = Some (JStr b) -> b <> "" ->
  add_competitor_to_competition (JObj fields) s
  = match insert_link (Link.mk (Some a) (Some b)) (competition_competitors s) with
    | Ok ls => (with_links ls s, jsonify true "Competitor assigned successfully.")
    | Raise (IntegrityError _) =>
        (s, jsonify false "Competitor is already assigned to this competition.")
    | Raise e => (s, jsonify false ("An error occurred: " ++ str e)%string)
    end.
Proof.
  intros Ha Hna Hb Hnb. apply String.eqb_neq in Hna, Hnb.
  unfold add_competitor_to_competition. simpl py_get. rewrite Ha, Hb.
  cbn [bind]. cbn [truthy]. rewrite Hna, Hnb. reflexivity.
Qed.

(** X12. Once [POST /api/competitions/add_competitor] has stored a new
    pair (competition name [a], competitor id [b], both non-empty
    strings), every competitor row of id [b] is in the listing of [a] with
    its name and nationality, and the profile of [b] is found and lists
    every competition row of name [a] with its name, date and location. *)
Theorem assignment_shows_in_listing_and_profile :
  forall (s : store) (fields : list (string * json)) (a b : string)
         (c : Competitor.t),
    assoc "competition_name" fields = Some (JStr a) -> a <> "" ->
    assoc "competitor_id" fields = Some (JStr b) -> b <> "" ->
    ~ In (Link.mk (Some a) (Some b)) (competition_competitors s) ->
    In c (competitors s) -> Competitor.id c = Some b ->
    let s' := fst (add_competitor_to_competition (JObj fields) s) in
    snd (add_competitor_to_competition (JObj fields) s)
    = jsonify true "Competitor assigned successfully."
    /\ (exists rows,
           get_competition_competitors a s' = mkResponse 200 (NameNationality rows)
           /\ In (Competitor.name c, Competitor.nationality c) rows)
    /\ (exists c' comps,
           get_competitor_profile b s' = mkResponse 200 (Profile c' comps)
           /\ Competitor.id c' = Some b
           /\ forall comp, In comp (competitions s) ->
                           Competition.name comp = Some a ->
                           In (name_date_location comp) comps).
Proof.
  intros s fields a b c Ha Hna Hb Hnb Hnew Hc Hid s'. subst s'.
  rewrite (assign_statement fields a b s Ha Hna Hb Hnb).
  unfold insert_link. rewrite insert_new; [|reflexivity|].
  2:{ destruct (existsb _ _) eqn:E; [|reflexivity].
      apply link_taken in E. contradiction. }
  cbn [fst snd]. split; [reflexivity|]. split.
  - eexists. split; [reflexivity|]. apply in_map_iff. exists c.
    split; [reflexivity|]. apply competition_members_spec. simpl.
    split; [assumption|]. exists b. split; [assumption|].
    apply in_or_app. right. now left.
  - unfold get_competitor_profile. cbn [competitors with_links].
    destruct (find_present (fun c => sql_eq (Competitor.id c) (Some b))
                           (competitors s) c Hc) as [c' Hc'].
    { rewrite Hid. simpl. apply String.eqb_refl. }
    rewrite Hc'. apply find_some in Hc'. destruct Hc' as [_ Hid'].
    apply sql_eq_text in Hid'.
    eexists. eexists. split; [reflexivity|]. split; [assumption|].
    intros comp Hcomp Hname. apply in_map_iff. exists comp.
    split; [reflexivity|]. apply competitor_competitions_spec. simpl.
    split; [assumption|]. exists a. split; [assumption|].
    apply in_or_app. right. now left.
Qed.

Lemma assignment_shows_in_listing_and_profile_witness :
  snd (add_competitor_to_competition
         (JObj [("competition_name", JStr "Summer Open");
                ("competitor_id", JStr "COMP-002")]) default_store)
  = jsonify true "Competitor assigned successfully."
  /\ get_competition_competitors "Summer Open" summer_open_joined
     = mkResponse 200
         (NameNationality [(Some "Maria Garcia", Some "Spanish");
                           (Some "Kenji Tanaka", Some "Japanese")]).
Proof.
  assert (Hnew : ~ In (Link.mk (Some "Summer Open") (Some "COMP-002"))
                      (competition_competitors default_store)).
  { simpl. intros [H|[H|[H|[H|[]]]]]; discriminate. }
  assert (Hc : In (Competitor.mk (Some "COMP-002") (Some "Maria Garcia")
                                 (Some "Spanish") (Some "Active"))
                  (competitors default_store)).
  { simpl. tauto. }
  assert (Ha : "Summer Open" <> "") by discriminate.
  assert (Hb : "COMP-002" <> "") by discriminate.
  pose proof (assignment_shows_in_listing_and_profile default_store
                [("competition_name", JStr "Summer Open");
                 ("competitor_id", JStr "COMP-002")]
                "Summer Open" "COMP-002" _ eq_refl Ha eq_refl Hb Hnew Hc eq_refl)
    as (Hanswer & _).
  split; [exact Hanswer | reflexivity].
Defined.

Lemma profile_rows_spec (competitor_id : string) (s : store)
      (row : value * value * value) :
  In row (map name_date_location (competitor_competitions competitor_id s))
  <-> linked_competition competitor_id s row.
Proof.
  unfold linked_competition. rewrite in_map_iff. split.
  - intros (comp & <- & Hcomp). apply competitor_competitions_spec in Hcomp.
    destruct Hcomp as (Hcomp & k & Hname & Hlink). exists comp, k. auto.
  - intros (comp & k & Hcomp & Hname & Hlink & ->). exists comp.
    split; [reflexivity|]. apply competitor_competitions_spec. eauto.
Qed.

(** X13. After [POST /api/competitors/add] has stored a record under an id
    [k] that no competitor row had, the profile of [k] answers with
    exactly that record and a list that holds, in some order, the name,
    date and location of the competition rows that the association rows
    already in the store paired with [k], and nothing else: associations
    outlive the competitor they name and come back with its id. *)
Theorem added_competitor_has_profile :
  forall (s : store) (fields : list (string * json)) (k : string)
         (n nat st : value),
    has fields "id" (Some k) -> has fields "name" n ->
    has fields "nationality" nat -> has fields "status" st ->
    (forall c, In c (competitors s) -> Competitor.id c <> Some k) ->
    snd (add_competitor (JObj fields) s)
    = jsonify true "Competitor added successfully."
    /\ exists comps,
         get_competitor_profile k (fst (add_competitor (JObj fields) s))
         = mkResponse 200 (Profile (Competitor.mk (Some k) n nat st) comps)
         /\ forall row, In row comps <-> linked_competition k s row.
Proof.
  intros s fields k n nat st Hk Hn Hnat Hst Hnew.
  unfold add_competitor.
  rewrite (py_item_has _ _ _ Hk), (py_item_has _ _ _ Hn),
    (py_item_has _ _ _ Hnat), (py_item_has _ _ _ Hst).
  unfold bind. rewrite !bind_param_value.
  unfold insert_competitor. rewrite insert_new; [|reflexivity|].
  2:{ apply existsb_false. intros c Hc. unfold competitor_key.
      cbn [Competitor.id]. rewrite sql_eq_sym. apply sql_eq_text_false. auto. }
  cbn [fst snd]. split; [reflexivity|].
  exists (map name_date_location (competitor_competitions k s)). split.
  - unfold get_competitor_profile. cbn [competitors with_competitors].
    rewrite find_after by (intros c Hc; apply sql_eq_text_false; auto).
    simpl find. rewrite String.eqb_refl. reflexivity.
  - intros row. apply profile_rows_spec.
Qed.

Lemma added_competitor_has_profile_witness :
  snd (add_competitor (JObj comp_004) default_store)
  = jsonify true "Competitor added successfully."
  /\ exists comps,
       get_competitor_profile "COMP-004"
         (fst (add_competitor (JObj comp_004) default_store))
       = mkResponse 200
           (Profile (Competitor.mk (Some "COMP-004") (Some "Lena Vogel")
                                   (Some "German") (Some "Active")) comps).
Proof.
  destruct (added_competitor_has_profile default_store comp_004 "COMP-004"
              (Some "Lena Vogel") (Some "German") (Some "Active")
              eq_refl eq_refl eq_refl eq_refl) as (Hanswer & comps & Hprofile & _).
  - intros c Hc. simpl in Hc. destruct Hc as [<-|[<-|[<-|[]]]]; discriminate.
  - split; [exact Hanswer|]. exists comps. exact Hprofile.
Defined.

(** X14. After [POST /api/competitors/remove] with the id [k], the profile
    of [k] is a 404 and no listing holds a row of id [k]; the rows of the
    other competitors stay in the listings they were in. *)
Theorem removed_competitor_is_gone :
  forall (s : store) (fields : list (string * json)) (k : string),
    assoc "id" fields = Some (JStr k) ->
    let s' := fst (remove_competitor (JObj fields) s) in
    get_competitor_profile k s'
    = mkResponse 404 (Message false "Competitor not found.")
    /\ (forall name c, In c (competition_members name s') ->
                       Competitor.id c <> Some k)
    /\ (forall name c, In c (competition_members name s) ->
                       Competitor.id c <> Some k ->
                       In c (competition_members name s')).
Proof.
  intros s fields k Hk s'. subst s'. unfold remove_competitor.
  rewrite (py_get_text _ _ _ _ Hk). unfold bind. rewrite bind_param_value.
  cbn [fst].
  assert (Hleft : forall c,
             In c (delete (fun c => sql_eq (Competitor.id c) (Some k))
                          (competitors s)) ->
             Competitor.id c <> Some k).
  { intros c Hc H. apply delete_none_left in Hc.
    rewrite H in Hc. simpl in Hc. now rewrite String.eqb_refl in Hc. }
  split; [|split].
  - unfold get_competitor_profile. cbn [competitors with_competitors].
    rewrite find_absent; [reflexivity|].
    intros c Hc. now apply delete_none_left in Hc.
  - intros name c Hc. apply competition_members_spec in Hc.
    destruct Hc as [Hc _]. now apply Hleft.
  - intros name c Hc Hid. apply competition_members_spec in Hc.
    destruct Hc as [Hc Hlink]. apply competition_members_spec.
    split; [|exact Hlink]. simpl. unfold delete. apply filter_In.
    split; [assumption|]. apply negb_true_iff. now apply sql_eq_text_false.
Qed.

Lemma removed_competitor_is_gone_witness :
  get_competitor_profile "COMP-001"
    (fst (remove_competitor (JObj [("id", JStr "COMP-001")]) default_store))
  = mkResponse 404 (Message false "Competitor not found.").
Proof.
  exact (proj1 (removed_competitor_is_gone default_store
                  [("id", JStr "COMP-001")] "COMP-001" eq_refl)).
Defined.

(** X15. In a store that keeps the constraints, the profile of an id
    answers with the one competitor row of that id, whichever row of the
    table it is, and with a list that holds, in some order, the name, date
    and location of exactly the competition rows that an association row
    pairs with the id. *)
Theorem profile_is_the_row_of_the_id :
  forall (s : store) (k : string) (c : Competitor.t),
    wf s = true -> In c (competitors s) -> Competitor.id c = Some k ->
    exists comps,
      get_competitor_profile k s = mkResponse 200 (Profile c comps)
      /\ forall row, In row comps <-> linked_competition k s row.
Proof.
  intros s k c Hwf Hc Hid. apply wf_iff in Hwf.
  destruct Hwf as (_ & _ & _ & Hd & _).
  exists (map name_date_location (competitor_competitions k s)). split.
  - unfold get_competitor_profile.
    rewrite (find_unique competitor_key _ _ c); auto.
    + intros x y Hx Hy. unfold competitor_key.
      eapply sql_eq_both_text; eassumption.
    + rewrite Hid. simpl. apply String.eqb_refl.
  - intros row. apply profile_rows_spec.
Qed.

Lemma profile_is_the_row_of_the_id_witness :
  exists comps,
    get_competitor_profile "COMP-003" default_store
    = mkResponse 200
        (Profile (Competitor.mk (Some "COMP-003") (Some "Kenji Tanaka")
                                (Some "Japanese") (Some "Active")) comps)
    /\ In (Some "Summer Open", Some "July 20, 2025", Some "Tokyo, Japan") comps.
Proof.
  destruct (profile_is_the_row_of_the_id default_store "COMP-003"
              (Competitor.mk (Some "COMP-003") (Some "Kenji Tanaka")
                             (Some "Japanese") (Some "Active")))
    as (comps & Hprofile & Hrows).
  - reflexivity.
  - simpl. tauto.
  - reflexivity.
  - exists comps. split; [exact Hprofile|]. apply Hrows.
    exists (Competition.mk (Some "Summer Open") (Some "July 20, 2025")
                           (Some "Tokyo, Japan")
                           (Some "The biggest event of the year.")
                           (Some "Upcoming")), "Summer Open".
    simpl. tauto.
Defined.

(** ** Seeding from the files *)

Lemma seed_items (f : option document) (j : json) (items : list (string * json)) :
  json_load f = Ok j -> py_items j = Ok items ->
  f = Some (Parsed (JObj items)).
Proof.
  destruct f as [[|j']|]; simpl; try discriminate.
  intros H. inversion H. subst j'.
  destruct j; simpl; try discriminate. intros H'. now inversion H'.
Qed.

(** The three loops of a load that goes through. *)
Lemma load_documents_steps (fs : files) (s s' : store) :
  load_documents fs s = Ok s' ->
  exists us cs ks s1 s2,
    users_json fs = Some (Parsed (JObj us))
    /\ competitions_json fs = Some (Parsed (JObj cs))
    /\ competitors_json fs = Some (Parsed (JObj ks))
    /\ for_each load_user us s = Ok s1
    /\ for_each load_competition cs s1 = Ok s2
    /\ for_each load_competitor ks s2 = Ok s'.
Proof.
  unfold load_documents. intros H.
  apply bind_ok in H. destruct H as (ju & Hju & H).
  apply bind_ok in H. destruct H as (us & Hus & H).
  apply bind_ok in H. destruct H as (s1 & Hs1 & H).
  apply bind_ok in H. destruct H as (jc & Hjc & H).
  apply bind_ok in H. destruct H as (cs & Hcs & H).
  apply bind_ok in H. destruct H as (s2 & Hs2 & H).
  apply bind_ok in H. destruct H as (jk & Hjk & H).
  apply bind_ok in H. destruct H as (ks & Hks & H).
  exists us, cs, ks, s1, s2.
  repeat split; eauto using seed_items.
Qed.

Lemma load_initial_data_loaded (fs : files) (s s' : store) :
  load_initial_data fs s = (s', true) -> load_documents fs s = Ok s'.
Proof.
  unfold load_initial_data. destruct (_ || _); [discriminate|].
  destruct (load_documents fs s); intros H; inversion H. reflexivity.
Qed.

(** X16. A seed file that is missing, is not JSON, or is JSON but not an
    object makes the loader give up without keeping any row of the files
    it could read, and [init_db] leaves the default dataset. *)
Theorem unusable_seed_file_loads_defaults :
  forall (fs : files) (old : store),
    unusable (users_json fs) = true
    \/ unusable (competitions_json fs) = true
    \/ unusable (competitors_json fs) = true ->
    load_initial_data fs empty_store = (empty_store, false)
    /\ init_db fs old = default_store.
Proof.
  intros fs old Hbad.
  assert (Hload : load_initial_data fs empty_store = (empty_store, false)).
  { unfold load_initial_data. destruct (_ || _); [reflexivity|].
    destruct (load_documents fs empty_store) as [s'|e] eqn:E; [|reflexivity].
    apply load_documents_steps in E.
    destruct E as (us & cs & ks & s1 & s2 & Hu & Hc & Hk & _).
    rewrite Hu, Hc, Hk in Hbad. simpl in Hbad.
    destruct Hbad as [H|[H|H]]; discriminate. }
  split; [exact Hload|]. unfold init_db. now rewrite Hload.
Qed.

Lemma unusable_seed_file_loads_defaults_witness :
  init_db list_for_competitions empty_store = default_store.
Proof.
  exact (proj2 (unusable_seed_file_loads_defaults list_for_competitions
                  empty_store (or_intror (or_introl eq_refl)))).
Defined.

Lemma for_each_invariant_in {A S : Type} (P : S -> Prop)
      (body : A -> S -> result S) (xs : list A) :
  (forall x s s', In x xs -> body x s = Ok s' -> P s -> P s') ->
  forall s s', for_each body xs s = Ok s' -> P s -> P s'.
Proof.
  induction xs as [|x xs IH]; simpl; intros Hbody s s' H Hs.
  - inversion H. now subst.
  - apply bind_ok in H. destruct H as (s1 & H1 & H).
    apply IH with (s := s1); eauto.
Qed.

Section IgnoreFacts.
Context {row : Type}.
Variable filled : row -> bool.
Variable same_key : row -> row -> bool.

Lemma insert_or_ignore_in (r x : row) (t : list row) :
  In x (insert_or_ignore filled same_key r t) ->
  In x t \/ (x = r /\ filled r = true).
Proof.
  unfold insert_or_ignore. destruct (filled r); simpl; [|auto].
  destruct (existsb (same_key r) t); [auto|].
  intros H. apply in_app_or in H. destruct H as [H|[H|[]]]; auto.
Qed.

Lemma insert_or_ignore_keeps (r x : row) (t : list row) :
  In x t -> In x (insert_or_ignore filled same_key r t).
Proof.
  unfold insert_or_ignore. destruct (negb (filled r)); [auto|].
  destruct (existsb (same_key r) t); [auto|].
  intros H. apply in_or_app. now left.
Qed.

Lemma insert_or_ignore_key (r : row) (t : list row) :
  filled r = true ->
  exists x, In x (insert_or_ignore filled same_key r t)
            /\ (x = r \/ same_key r x = true).
Proof.
  intros Hf. unfold insert_or_ignore. rewrite Hf. simpl.
  destruct (existsb (same_key r) t) eqn:E.
  - apply existsb_exists in E. destruct E as (x & Hx & Hk). eauto.
  - exists r. split; [|now left]. apply in_or_app. right. now left.
Qed.
End IgnoreFacts.

Lemma load_link_users (name : value) (j : json) (s s' : store) :
  load_link name j s = Ok s' ->
  users s' = users s /\ competitions s' = competitions s
  /\ competitors s' = competitors s.
Proof.
  unfold load_link. intros H. apply bind_ok in H.
  destruct H as (ci & _ & H). inversion H. auto.
Qed.

Lemma load_competition_users (entry : string * json) (s s' : store) :
  load_competition entry s = Ok s' ->
  users s' = users s /\ competitors s' = competitors s.
Proof.
  unfold load_competition. intros H. do 10 invert_bind H.
  destruct (py_contains "competitor_ids" (snd entry)).
  - do 2 invert_bind H.
    eapply (for_each_invariant
              (fun x => users x = users s /\ competitors x = competitors s))
      in H; [exact H | | split; reflexivity].
    intros x s1 s2 Hx [Hu Hk]. apply load_link_users in Hx.
    destruct Hx as (Hu' & _ & Hk'). split; congruence.
  - inversion H. auto.
Qed.

Lemma load_competitor_users (entry : string * json) (s s' : store) :
  load_competitor entry s = Ok s' ->
  users s' = users s /\ competitions s' = competitions s
  /\ competition_competitors s' = competition_competitors s.
Proof.
  unfold load_competitor. intros H. invert_binds H. inversion H. auto.
Qed.

Lemma load_user_frame (entry : string * json) (s s' : store) :
  load_user entry s = Ok s' ->
  competitions s' = competitions s /\ competitors s' = competitors s
  /\ competition_competitors s' = competition_competitors s.
Proof.
  unfold load_user. destruct entry as [password details]. intros H.
  invert_binds H. inversion H. auto.
Qed.

(** The users table of a load that goes through is that of its first
    loop. *)
Lemma loaded_users (cs ks : list (string * json)) (s1 s2 s' : store) :
  for_each load_competition cs s1 = Ok s2 ->
  for_each load_competitor ks s2 = Ok s' ->
  users s' = users s1.
Proof.
  intros Hc Hk.
  apply (for_each_invariant (fun x => users x = users s1)) in Hc;
    [|intros x a b Hx Hab; apply load_competition_users in Hx;
      destruct Hx; congruence | reflexivity].
  apply (for_each_invariant (fun x => users x = users s1)) in Hk;
    [assumption | | assumption].
  intros x a b Hx Hab. apply load_competitor_users in Hx.
  destruct Hx as (Hu & _). congruence.
Qed.

Lemma load_user_rows (k : string) (details : json) (s s' : store) :
  load_user (k, details) s = Ok s' ->
  exists r, py_item details "role" = Ok (json_of_value r)
            /\ users s' = insert_or_ignore_user (User.mk (Some k) r) (users s).
Proof.
  unfold load_user. intros H.
  apply bind_ok in H. destruct H as (role & Hrole & H).
  apply bind_ok in H. destruct H as (r & Hr & H).
  inversion H. exists r. split; [|reflexivity].
  rewrite Hrole. destruct role; simpl in Hr; inversion Hr; reflexivity.
Qed.

Lemma loaded_users_sound (items : list (string * json)) :
  forall s s',
    for_each load_user items s = Ok s' ->
    forall u, In u (users s') ->
              In u (users s)
              \/ exists k details r,
                   In (k, details) items
                   /\ py_item details "role" = Ok (JStr r)
                   /\ u = User.mk (Some k) (Some r).
Proof.
  induction items as [|[k details] items IH]; simpl; intros s s' H u Hu.
  - inversion H. subst. now left.
  - apply bind_ok in H. destruct H as (s1 & H1 & H).
    destruct (IH _ _ H u Hu) as [Hin|(k' & d' & r' & Hin & Hrole & ->)].
    + apply load_user_rows in H1. destruct H1 as (r & Hrole & Hus).
      rewrite Hus in Hin. apply insert_or_ignore_in in Hin.
      destruct Hin as [Hin|[-> Hfilled]]; [now left|]. right.
      destruct r as [r|]; [|discriminate]. exists k, details, r. auto.
    + right. exists k', d', r'. auto.
Qed.

Lemma loaded_users_complete (items : list (string * json)) :
  forall s s',
    for_each load_user items s = Ok s' ->
    (forall u, In u (users s) -> In u (users s'))
    /\ forall k details r,
         In (k, details) items -> py_item details "role" = Ok (JStr r) ->
         exists u, In u (users s') /\ User.password u = Some k.
Proof.
  induction items as [|[k0 d0] items IH]; simpl; intros s s' H.
  - inversion H. subst. split; [auto|]. intros k details r [].
  - apply bind_ok in H. destruct H as (s1 & H1 & H).
    destruct (IH _ _ H) as [Hmono Hall].
    apply load_user_rows in H1. destruct H1 as (r0 & Hrole0 & Hus). split.
    + intros u Hu. apply Hmono. rewrite Hus. now apply insert_or_ignore_keeps.
    + intros k details r [Heq|Hin] Hrole; [|eauto].
      inversion Heq. subst k0 d0. rewrite Hrole in Hrole0.
      destruct r0 as [r0|]; inversion Hrole0.
      destruct (insert_or_ignore_key user_filled user_key
                  (User.mk (Some k) (Some r0)) (users s) eq_refl)
        as (x & Hx & Hkey).
      exists x. split.
      * apply Hmono. now rewrite Hus.
      * destruct Hkey as [->|Hkey]; [reflexivity|].
        unfold user_key in Hkey. cbn [User.password] in Hkey.
        rewrite sql_eq_sym in Hkey. now apply sql_eq_text in Hkey.
Qed.

(** X17. When the three seed files load, [init_db] leaves the loaded
    store, with no default row: every row of [users] is the password (the
    key) and the string role of an entry of users.json, and every entry
    of users.json with a string role has a row under its password. *)
Theorem users_table_is_users_json :
  forall (fs : files) (old s : store) (items : list (string * json)),
    users_json fs = Some (Parsed (JObj items)) ->
    load_initial_data fs empty_store = (s, true) ->
    init_db fs old = s
    /\ (forall u, In u (users s) ->
                  exists k details r,
                    In (k, details) items
                    /\ py_item details "role" = Ok (JStr r)
                    /\ u = User.mk (Some k) (Some r))
    /\ (forall k details r,
           In (k, details) items -> py_item details "role" = Ok (JStr r) ->
           exists u, In u (users s) /\ User.password u = Some k).
Proof.
  intros fs old s items Hfile Hload. split.
  - unfold init_db. now rewrite Hload.
  - apply load_initial_data_loaded, load_documents_steps in Hload.
    destruct Hload as (us & cs & ks & s1 & s2 & Hu & _ & _ & H1 & H2 & H3).
    rewrite Hfile in Hu. inversion Hu. subst us.
    rewrite (loaded_users cs ks s1 s2 s H2 H3). split.
    + intros u Hin.
      destruct (loaded_users_sound _ _ _ H1 u Hin) as [[]|H]. exact H.
    + apply (loaded_users_complete _ _ _ H1).
Qed.

Lemma users_table_is_users_json_witness :
  load_initial_data two_users_files empty_store
  = (mkStore [User.mk (Some "root") (Some "admin");
              User.mk (Some "guest") (Some "general")] [] [] [], true)
  /\ init_db two_users_files default_store
     = mkStore [User.mk (Some "root") (Some "admin");
                User.mk (Some "guest") (Some "general")] [] [] [].
Proof.
  split; [reflexivity|].
  exact (proj1 (users_table_is_users_json two_users_files default_store
                  (mkStore [User.mk (Some "root") (Some "admin");
                            User.mk (Some "guest") (Some "general")] [] [] [])
                  _ eq_refl eq_refl)).
Defined.

Lemma bind_param_ok (j : json) (v : value) :
  bind_param j = Ok v -> j = json_of_value v.
Proof.
  destruct j; simpl; intros H; inversion H; reflexivity.
Qed.

Lemma load_links_rows (n : value) (js : list json) :
  forall s s',
    for_each (load_link n) js s = Ok s' ->
    users s' = users s /\ competitions s' = competitions s
    /\ competitors s' = competitors s
    /\ (forall l, In l (competition_competitors s) ->
                  In l (competition_competitors s'))
    /\ (forall l, In l (competition_competitors s') ->
                  In l (competition_competitors s)
                  \/ exists ci, In (json_of_value ci) js /\ l = Link.mk n ci)
    /\ (forall a b, n = Some a -> In (JStr b) js ->
                    In (Link.mk (Some a) (Some b)) (competition_competitors s')).
Proof.
  induction js as [|j js IH]; simpl; intros s s' H.
  - inversion H. subst. repeat split; auto. intros a b _ [].
  - apply bind_ok in H. destruct H as (s1 & H1 & H).
    destruct (IH _ _ H) as (Hu & Hc & Hk & Hmono & Hsound & Hall).
    unfold load_link in H1. apply bind_ok in H1.
    destruct H1 as (ci & Hci & H1). inversion H1. subst s1.
    apply bind_param_ok in Hci. subst j. simpl in Hu, Hc, Hk.
    repeat split; auto.
    + intros l Hl. apply Hmono. simpl.
      now apply insert_or_ignore_keeps.
    + intros l Hl. destruct (Hsound l Hl) as [Hin|(ci' & Hin & ->)].
      * simpl in Hin. apply insert_or_ignore_in in Hin.
        destruct Hin as [Hin|[-> _]]; [now left|]. right. exists ci. auto.
      * right. exists ci'. auto.
    + intros a b -> [Hb|Hb]; [|now apply (Hall a b)].
      apply Hmono. simpl. destruct ci as [b'|]; inversion Hb. subst b'.
      destruct (insert_or_ignore_key (fun _ : Link.t => true) link_key
                  (Link.mk (Some a) (Some b)) (competition_competitors s)
                  eq_refl) as (x & Hx & Hkey).
      destruct Hkey as [->|Hkey]; [exact Hx|].
      assert (E : existsb (link_key (Link.mk (Some a) (Some b)))
                          (insert_or_ignore_link (Link.mk (Some a) (Some b))
                                                 (competition_competitors s))
                  = true).
      { apply existsb_exists. eauto. }
      now apply link_taken in E.
Qed.

Lemma load_competition_rows (key : string) (details : json) (s s' : store) :
  load_competition (key, details) s = Ok s' ->
  exists c js,
    competition_of details c
    /\ (py_contains "competitor_ids" details = false -> js = [])
    /\ (forall ids, py_item details "competitor_ids" = Ok ids ->
                    py_iter ids = Ok js)
    /\ for_each (load_link (Competition.name c)) js
         (with_competitions
            (insert_or_ignore_competition c (competitions s)) s)
       = Ok s'.
Proof.
  unfold load_competition. cbn [snd]. intros H.
  apply bind_ok in H. destruct H as (jn & Hjn & H).
  apply bind_ok in H. destruct H as (jd & Hjd & H).
  apply bind_ok in H. destruct H as (jl & Hjl & H).
  apply bind_ok in H. destruct H as (jds & Hjds & H).
  apply bind_ok in H. destruct H as (jst & Hjst & H).
  apply bind_ok in H. destruct H as (n & Hn & H).
  apply bind_ok in H. destruct H as (d & Hd & H).
  apply bind_ok in H. destruct H as (l & Hl & H).
  apply bind_ok in H. destruct H as (ds & Hds & H).
  apply bind_ok in H. destruct H as (st & Hst & H).
  apply bind_param_ok in Hn, Hd, Hl, Hds, Hst. subst.
  exists (Competition.mk n d l ds st).
  destruct (py_contains "competitor_ids" details) eqn:E.
  - apply bind_ok in H. destruct H as (ids & Hids & H).
    apply bind_ok in H. destruct H as (js & Hjs & H).
    exists js. split; [repeat split; assumption|].
    split; [discriminate|]. split; [|exact H].
    intros ids' Hids'. congruence.
  - exists []. split; [repeat split; assumption|].
    split; [reflexivity|]. split; [|exact H].
    intros ids Hids. destruct details; simpl in E, Hids; try discriminate.
    destruct (assoc "competitor_ids" fields); discriminate.
Qed.

Lemma loaded_competitions (items : list (string * json)) :
  forall s s',
    for_each load_competition items s = Ok s' ->
    (forall c, In c (competitions s) -> In c (competitions s'))
    /\ (forall l, In l (competition_competitors s) ->
                  In l (competition_competitors s'))
    /\ (forall c, In c (competitions s') ->
                  In c (competitions s)
                  \/ exists key details,
                       In (key, details) items /\ competition_of details c)
    /\ (forall l, In l (competition_competitors s') ->
                  In l (competition_competitors s)
                  \/ exists key details ids js,
                       In (key, details) items
                       /\ py_item details "name"
                          = Ok (json_of_value (Link.competition_name l))
                       /\ py_item details "competitor_ids" = Ok ids
                       /\ py_iter ids = Ok js
                       /\ In (json_of_value (Link.competitor_id l)) js)
    /\ (forall key details n,
           In (key, details) items -> py_item details "name" = Ok (JStr n) ->
           exists c, In c (competitions s') /\ Competition.name c = Some n)
    /\ (forall key details n ids b,
           In (key, details) items -> py_item details "name" = Ok (JStr n) ->
           py_item details "competitor_ids" = Ok (JArr ids) ->
           In (JStr b) ids ->
           In (Link.mk (Some n) (Some b)) (competition_competitors s')).
Proof.
  induction items as [|[key0 d0] items IH]; simpl; intros s s' H.
  - inversion H. subst. repeat split; auto.
    + intros key details n [].
    + intros key details n ids b [].
  - apply bind_ok in H. destruct H as (s1 & H1 & H).
    destruct (IH _ _ H) as (Hmc & Hml & Hsc & Hsl & Hcc & Hcl).
    apply load_competition_rows in H1.
    destruct H1 as (c0 & js & Hof & Hnone & Hiter & Hlinks).
    apply load_links_rows in Hlinks.
    destruct Hlinks as (_ & Hc1 & _ & Hm1 & Hs1 & Ha1).
    simpl in Hc1, Hm1, Hs1.
    split; [|split; [|split; [|split; [|split]]]].
    + intros c Hc. apply Hmc. rewrite Hc1. now apply insert_or_ignore_keeps.
    + intros l Hl. auto.
    + intros c Hc. destruct (Hsc c Hc) as [Hin|(key & details & Hin & Hof')].
      * rewrite Hc1 in Hin. apply insert_or_ignore_in in Hin.
        destruct Hin as [Hin|[-> _]]; [now left|].
        right. exists key0, d0. auto.
      * right. exists key, details. auto.
    + intros l Hl.
      destruct (Hsl l Hl) as [Hin|(key & details & ids & js' & Hin & H')].
      * destruct (Hs1 l Hin) as [Hin'|(ci & Hci & ->)]; [now left|].
        right. destruct Hof as (Hname & _).
        destruct (py_contains "competitor_ids" d0) eqn:E.
        -- destruct d0; simpl in E; try discriminate.
           simpl in Hiter. destruct (assoc "competitor_ids" fields) as [ids|] eqn:Ea;
             [|discriminate].
           exists key0, (JObj fields), ids, js. simpl py_item at 2. rewrite Ea.
           cbn [Link.competition_name Link.competitor_id]. auto 10.
        -- rewrite (Hnone eq_refl) in Hci. destruct Hci.
      * right. exists key, details, ids, js'. destruct H' as (? & ? & ? & ?).
        auto 10.
    + intros key details n [Heq|Hin] Hname; [|eauto].
      inversion Heq. subst key0 d0. destruct Hof as (Hname0 & _).
      rewrite Hname in Hname0.
      destruct (insert_or_ignore_key (fun _ : Competition.t => true)
                  competition_key c0 (competitions s) eq_refl)
        as (x & Hx & Hkey).
      exists x. split; [apply Hmc; now rewrite Hc1|].
      assert (Hn0 : Competition.name c0 = Some n).
      { destruct (Competition.name c0); inversion Hname0. reflexivity. }
      destruct Hkey as [->|Hkey]; [assumption|].
      unfold competition_key in Hkey. rewrite Hn0, sql_eq_sym in Hkey.
      now apply sql_eq_text in Hkey.
    + intros key details n ids b [Heq|Hin] Hname Hids Hb; [|eauto].
      inversion Heq. subst key0 d0. destruct Hof as (Hname0 & _).
      rewrite Hname in Hname0.
      assert (Hn0 : Competition.name c0 = Some n).
      { destruct (Competition.name c0); inversion Hname0. reflexivity. }
      apply Hml. apply (Ha1 n b Hn0).
      specialize (Hiter _ Hids). simpl in Hiter. inversion Hiter. now subst.
Qed.

Lemma users_loop_frame (items : list (string * json)) (s s' : store) :
  for_each load_user items s = Ok s' ->
  competitions s' = competitions s /\ competitors s' = competitors s
  /\ competition_competitors s' = competition_competitors s.
Proof.
  intros H.
  apply (for_each_invariant
           (fun x => competitions x = competitions s
                     /\ competitors x = competitors s
                     /\ competition_competitors x = competition_competitors s))
    in H; [exact H | | auto].
  intros x a b Hx (H1 & H2 & H3). apply load_user_frame in Hx.
  destruct Hx as (H1' & H2' & H3'). repeat split; congruence.
Qed.

Lemma competitions_loop_frame (items : list (string * json)) (s s' : store) :
  for_each load_competition items s = Ok s' -> competitors s' = competitors s.
Proof.
  intros H.
  apply (for_each_invariant (fun x => competitors x = competitors s)) in H;
    [exact H | | reflexivity].
  intros x a b Hx Hab. apply load_competition_users in Hx.
  destruct Hx. congruence.
Qed.

Lemma competitors_loop_frame (items : list (string * json)) (s s' : store) :
  for_each load_competitor items s = Ok s' ->
  competitions s' = competitions s
  /\ competition_competitors s' = competition_competitors s.
Proof.
  intros H.
  apply (for_each_invariant
           (fun x => competitions x = competitions s
                     /\ competition_competitors x = competition_competitors s))
    in H; [exact H | | auto].
  intros x a b Hx (H1 & H2). apply load_competitor_users in Hx.
  destruct Hx as (_ & H1' & H2'). split; congruence.
Qed.

(** X18. When the three seed files load, the rows of [competitions] are
    the records of the entries of competitions.json, each filed under the
    [name] inside the entry (the key of the entry is not used), and every
    entry with a string name has a row under that name.  The association
    rows are the pairs of an entry's name with an element of its
    [competitor_ids], and every string id listed by an entry with a string
    name is paired with it, whether or not competitors.json has a
    competitor of that id. *)
Theorem competitions_table_is_competitions_json :
  forall (fs : files) (s : store) (items : list (string * json)),
    competitions_json fs = Some (Parsed (JObj items)) ->
    load_initial_data fs empty_store = (s, true) ->
    (forall c, In c (competitions s) ->
               exists key details,
                 In (key, details) items /\ competition_of details c)
    /\ (forall key details n,
           In (key, details) items -> py_item details "name" = Ok (JStr n) ->
           exists c, In c (competitions s) /\ Competition.name c = Some n)
    /\ (forall l, In l (competition_competitors s) ->
                  exists key details ids js,
                    In (key, details) items
                    /\ py_item details "name"
                       = Ok (json_of_value (Link.competition_name l))
                    /\ py_item details "competitor_ids" = Ok ids
                    /\ py_iter ids = Ok js
                    /\ In (json_of_value (Link.competitor_id l)) js)
    /\ (forall key details n ids b,
           In (key, details) items -> py_item details "name" = Ok (JStr n) ->
           py_item details "competitor_ids" = Ok (JArr ids) ->
           In (JStr b) ids ->
           In (Link.mk (Some n) (Some b)) (competition_competitors s)).
Proof.
  intros fs s items Hfile Hload.
  apply load_initial_data_loaded, load_documents_steps in Hload.
  destruct Hload as (us & cs & ks & s1 & s2 & _ & Hc & _ & H1 & H2 & H3).
  rewrite Hfile in Hc. inversion Hc. subst cs.
  apply users_loop_frame in H1. destruct H1 as (Hc1 & _ & Hl1).
  apply competitors_loop_frame in H3. destruct H3 as (Hc3 & Hl3).
  rewrite Hc3, Hl3.
  destruct (loaded_competitions _ _ _ H2) as (_ & _ & Hsc & Hsl & Hcc & Hcl).
  rewrite Hc1 in Hsc. rewrite Hl1 in Hsl. simpl in Hsc, Hsl.
  repeat split.
  - intros c Hin. destruct (Hsc c Hin) as [[]|H]. exact H.
  - exact Hcc.
  - intros l Hin. destruct (Hsl l Hin) as [[]|H]. exact H.
  - exact Hcl.
Qed.

Lemma competitions_table_is_competitions_json_witness :
  load_initial_data one_cup_files empty_store = (one_cup_store, true)
  /\ In (Link.mk (Some "City Cup") (Some "COMP-777"))
        (competition_competitors one_cup_store).
Proof.
  split; [reflexivity|].
  destruct (competitions_table_is_competitions_json one_cup_files
              one_cup_store _ eq_refl eq_refl) as (_ & _ & _ & Hall).
  eapply Hall;
    [left; reflexivity | reflexivity | reflexivity | left; reflexivity].
Defined.

Lemma load_competitor_rows (key : string) (details : json) (s s' : store) :
  load_competitor (key, details) s = Ok s' ->
  exists c,
    competitor_of details c
    /\ competitors s' = insert_or_ignore_competitor c (competitors s).
Proof.
  unfold load_competitor. cbn [snd]. intros H.
  apply bind_ok in H. destruct H as (ji & Hji & H).
  apply bind_ok in H. destruct H as (jn & Hjn & H).
  apply bind_ok in H. destruct H as (jnat & Hjnat & H).
  apply bind_ok in H. destruct H as (jst & Hjst & H).
  apply bind_ok in H. destruct H as (i & Hi & H).
  apply bind_ok in H. destruct H as (n & Hn & H).
  apply bind_ok in H. destruct H as (nat & Hnat & H).
  apply bind_ok in H. destruct H as (st & Hst & H).
  apply bind_param_ok in Hi, Hn, Hnat, Hst. subst.
  exists (Competitor.mk i n nat st). inversion H.
  split; [repeat split; assumption | reflexivity].
Qed.

Lemma loaded_competitors (items : list (string * json)) :
  forall s s',
    for_each load_competitor items s = Ok s' ->
    (forall c, In c (competitors s) -> In c (competitors s'))
    /\ (forall c, In c (competitors s') ->
                  In c (competitors s)
                  \/ exists key details,
                       In (key, details) items /\ competitor_of details c)
    /\ (forall key details k,
           In (key, details) items -> py_item details "id" = Ok (JStr k) ->
           exists c, In c (competitors s') /\ Competitor.id c = Some k).
Proof.
  induction items as [|[key0 d0] items IH]; simpl; intros s s' H.
  - inversion H. subst. repeat split; auto. intros key details k [].
  - apply bind_ok in H. destruct H as (s1 & H1 & H).
    destruct (IH _ _ H) as (Hmono & Hsound & Hall).
    apply load_competitor_rows in H1. destruct H1 as (c0 & Hof & Hrows).
    split; [|split].
    + intros c Hc. apply Hmono. rewrite Hrows. now apply insert_or_ignore_keeps.
    + intros c Hc. destruct (Hsound c Hc) as [Hin|(key & details & Hin & Hof')].
      * rewrite Hrows in Hin. apply insert_or_ignore_in in Hin.
        destruct Hin as [Hin|[-> _]]; [now left|].
        right. exists key0, d0. auto.
      * right. exists key, details. auto.
    + intros key details k [Heq|Hin] Hid; [|eauto].
      inversion Heq. subst key0 d0. destruct Hof as (Hid0 & _).
      rewrite Hid in Hid0.
      assert (Hk : Competitor.id c0 = Some k).
      { destruct (Competitor.id c0); inversion Hid0. reflexivity. }
      destruct (insert_or_ignore_key (fun _ : Competitor.t => true)
                  competitor_key c0 (competitors s) eq_refl)
        as (x & Hx & Hkey).
      exists x. split; [apply Hmono; now rewrite Hrows|].
      destruct Hkey as [->|Hkey]; [assumption|].
      unfold competitor_key in Hkey. rewrite Hk, sql_eq_sym in Hkey.
      now apply sql_eq_text in Hkey.
Qed.

(** X19. When the three seed files load, the rows of [competitors] are the
    records of the entries of competitors.json, each filed under the [id]
    inside the entry (the key of the entry is not used), and every entry
    with a string id has a row under that id. *)
Theorem competitors_table_is_competitors_json :
  forall (fs : files) (s : store) (items : list (string * json)),
    competitors_json fs = Some (Parsed (JObj items)) ->
    load_initial_data fs empty_store = (s, true) ->
    (forall c, In c (competitors s) ->
               exists key details,
                 In (key, details) items /\ competitor_of details c)
    /\ (forall key details k,
           In (key, details) items -> py_item details "id" = Ok (JStr k) ->
           exists c, In c (competitors s) /\ Competitor.id c = Some k).
Proof.
  intros fs s items Hfile Hload.
  apply load_initial_data_loaded, load_documents_steps in Hload.
  destruct Hload as (us & cs & ks & s1 & s2 & _ & _ & Hk & H1 & H2 & H3).
  rewrite Hfile in Hk. inversion Hk. subst ks.
  apply users_loop_frame in H1. destruct H1 as (_ & Hk1 & _).
  apply competitions_loop_frame in H2.
  destruct (loaded_competitors _ _ _ H3) as (_ & Hsound & Hall).
  rewrite H2, Hk1 in Hsound. simpl in Hsound. split.
  - intros c Hin. destruct (Hsound c Hin) as [[]|H]. exact H.
  - exact Hall.
Qed.

Lemma competitors_table_is_competitors_json_witness :
  exists c, In c (competitors one_cup_store)
            /\ Competitor.id c = Some "COMP-001".
Proof.
  destruct (competitors_table_is_competitors_json one_cup_files one_cup_store
              _ eq_refl eq_refl) as (_ & Hall).
  eapply Hall; [left; reflexivity | reflexivity].
Defined.

(** ** Adding then removing *)

Lemma delete_after_insert {row : Type} (p : row -> bool) (t : list row) (r : row) :
  (forall x, In x t -> p x = false) -> p r = true ->
  delete p (t ++ [r]) = t.
Proof.
  intros Ht Hr. unfold delete. rewrite filter_app. simpl. rewrite Hr. simpl.
  rewrite app_nil_r. apply (delete_absent p). now apply existsb_false.
Qed.

(** X20. Adding a row under a key no row has and then removing that key
    gives the store back as it was, for users (signup), competitions and
    competitors. *)
Theorem add_then_remove_restores :
  forall (s : store) (fields : list (string * json)) (k : string),
    (assoc "password" fields = Some (JStr k) ->
     (forall u, In u (users s) -> User.password u <> Some k) ->
     fst (remove_user (JObj (credentials k)) (fst (signup (JObj fields) s))) = s)
    /\ (forall d l ds,
           has fields "name" (Some k) -> has fields "date" d ->
           has fields "location" l -> has fields "description" ds ->
           (forall c, In c (competitions s) -> Competition.name c <> Some k) ->
           fst (remove_competition (JObj [("name", JStr k)])
                                   (fst (add_competition (JObj fields) s))) = s)
    /\ (forall n nat st,
           has fields "id" (Some k) -> has fields "name" n ->
           has fields "nationality" nat -> has fields "status" st ->
           (forall c, In c (competitors s) -> Competitor.id c <> Some k) ->
           fst (remove_competitor (JObj [("id", JStr k)])
                                  (fst (add_competitor (JObj fields) s))) = s).
Proof.
  intros s fields k. split; [|split].
  - intros Hk Hnew.
    rewrite (signup_statement fields (Some k) s (py_get_text _ _ _ _ Hk)).
    unfold insert_user. rewrite insert_new; [|reflexivity|].
    2:{ apply existsb_false. intros u Hu. unfold user_key.
        cbn [User.password]. rewrite sql_eq_sym. apply sql_eq_text_false. auto. }
    cbn [fst]. unfold remove_user. simpl py_get.
    unfold bind. simpl bind_param. cbn [fst users with_users].
    rewrite delete_after_insert.
    + now destruct s.
    + intros u Hu. apply sql_eq_text_false. auto.
    + simpl. apply String.eqb_refl.
  - intros d l ds Hk Hd Hl Hds Hnew. unfold add_competition.
    rewrite (py_item_has _ _ _ Hk), (py_item_has _ _ _ Hd),
      (py_item_has _ _ _ Hl), (py_item_has _ _ _ Hds).
    unfold bind. rewrite !bind_param_value.
    unfold insert_competition. rewrite insert_new; [|reflexivity|].
    2:{ apply existsb_false. intros c Hc. unfold competition_key.
        cbn [Competition.name]. rewrite sql_eq_sym.
        apply sql_eq_text_false. auto. }
    cbn [fst]. unfold remove_competition. simpl py_get.
    unfold bind. simpl bind_param. cbn [fst competitions with_competitions].
    rewrite delete_after_insert.
    + now destruct s.
    + intros c Hc. apply sql_eq_text_false. auto.
    + simpl. apply String.eqb_refl.
  - intros n nat st Hk Hn Hnat Hst Hnew. unfold add_competitor.
    rewrite (py_item_has _ _ _ Hk), (py_item_has _ _ _ Hn),
      (py_item_has _ _ _ Hnat), (py_item_has _ _ _ Hst).
    unfold bind. rewrite !bind_param_value.
    unfold insert_competitor. rewrite insert_new; [|reflexivity|].
    2:{ apply existsb_false. intros c Hc. unfold competitor_key.
        cbn [Competitor.id]. rewrite sql_eq_sym.
        apply sql_eq_text_false. auto. }
    cbn [fst]. unfold remove_competitor. simpl py_get.
    unfold bind. simpl bind_param. cbn [fst competitors with_competitors].
    rewrite delete_after_insert.
    + now destruct s.
    + intros c Hc. apply sql_eq_text_false. auto.
    + simpl. apply String.eqb_refl.
Qed.

Lemma add_then_remove_restores_witness :
  fst (remove_competitor (JObj [("id", JStr "COMP-004")])
                         (fst (add_competitor (JObj comp_004) default_store)))
  = default_store.
Proof.
  apply (proj2 (proj2 (add_then_remove_restores default_store comp_004
                         "COMP-004"))
               (Some "Lena Vogel") (Some "German") (Some "Active"));
    try reflexivity.
  intros c Hc. simpl in Hc. destruct Hc as [<-|[<-|[<-|[]]]]; discriminate.
Defined.

(** ** Bodies that are not objects *)

(** X21. A body that parses to JSON other than an object (a string, a
    list, [null]) makes every handler raise when it reads a field: the
    two edit handlers catch the exception and answer HTTP 200 with
    [success:false]; every other handler with a body lets it through,
    which is a 500; in both cases the store is not changed. *)
Theorem non_object_body_is_refused :
  forall (body : json) (s : store),
    (forall fields, body <> JObj fields) ->
    (forall h, In h raising_handlers ->
               exists e, h body s = (s, server_error e))
    /\ (forall h, In h catching_handlers ->
                  exists msg, h body s = (s, jsonify false msg)).
Proof.
  intros body s Hbody.
  assert (Hget : forall k d, py_get body k d = Raise AttributeError).
  { intros k d. destruct body; try reflexivity. now elim (Hbody fields). }
  assert (Hitem : forall k, py_item body k = Raise TypeError).
  { intros k. destruct body; try reflexivity. now elim (Hbody fields). }
  split; intros h Hh; simpl in Hh.
  - destruct Hh as [<-|[<-|[<-|[<-|[<-|[<-|[<-|[<-|[<-|[]]]]]]]]]];
      unfold login, signup, add_user, remove_user, add_competition,
        remove_competition, add_competitor_to_competition, add_competitor,
        remove_competitor;
      rewrite ?Hget, ?Hitem; simpl; eauto.
  - destruct Hh as [<-|[<-|[]]];
      unfold edit_competition, edit_competitor;
      rewrite ?Hitem; simpl; eauto.
Qed.

Lemma non_object_body_is_refused_witness :
  exists e, signup (JArr [JStr "admin"]) default_store
            = (default_store, server_error e).
Proof.
  refine (proj1 (non_object_body_is_refused (JArr [JStr "admin"])
                   default_store _) signup _).
  - intros fields. discriminate.
  - simpl. tauto.
Defined.
